(** * Pixelfed adapter of megalodon: API client and entity converter

    A shallow embedding of [megalodon/src/pixelfed/api_client.ts].

    - [JS]        : the JavaScript values the converter reads and builds
                    (parsed JSON), property reads, truthiness, exceptions.
    - [Converter] : [PixelfedAPI.Converter], function by function.
    - [Axios]     : the transport the client calls (settled promises, the
                    library-wide defaults, abort controllers).
    - [Client]    : [PixelfedAPI.Client], its constructor, the eight verb
                    methods and [cancel]. *)

From Stdlib Require Import String List ZArith Bool Lia.
From stdpp Require Import base gmap strings list fin_maps.
Import ListNotations.

Local Open Scope string_scope.
Local Open Scope list_scope.

(* ===================================================================== *)
(** ** JavaScript values *)
(* ===================================================================== *)

Module JS.

(** A parsed response body.  An object keeps its own properties in
    insertion order; a key maps to at most one value, and a key may be
    present with the value [undefined]. *)
#[local] Unset Elimination Schemes.
Inductive value : Type :=
| VUndefined
| VNull
| VBool (b : bool)
| VNum (n : Z)
| VStr (s : string)
| VArr (items : list value)
| VObj (fields : list (string * value)).
#[local] Set Elimination Schemes.

(** The only exception the converter can raise: reading a property of
    [null] or [undefined]. *)
Inductive exn : Type :=
| TypeError (reading : string).

Inductive result (A : Type) : Type :=
| Ok (a : A)
| Throw (e : exn).
Arguments Ok {A} a.
Arguments Throw {A} e.

Definition bind {A B : Type} (m : result A) (k : A -> result B) : result B :=
  match m with
  | Ok a => k a
  | Throw e => Throw e
  end.

(** [ToBoolean]: what [x ? a : b] and [if (x)] test. *)
Definition truthy (v : value) : bool :=
  match v with
  | VUndefined | VNull => false
  | VBool b => b
  | VNum n => negb (Z.eqb n 0)
  | VStr s => negb (String.eqb s "")
  | VArr _ | VObj _ => true
  end.

Definition nullish (v : value) : bool :=
  match v with
  | VUndefined | VNull => true
  | _ => false
  end.

(** [Array.isArray] *)
Definition isArray (v : value) : bool :=
  match v with
  | VArr _ => true
  | _ => false
  end.

(** Own property of an object, as an option: [None] when the key is not
    there at all. *)
Fixpoint assoc (k : string) (fields : list (string * value)) : option value :=
  match fields with
  | [] => None
  | (k', v) :: rest => if String.eqb k k' then Some v else assoc k rest
  end.

(** The value of [o.k] for an object with these fields. *)
Definition field (k : string) (fields : list (string * value)) : value :=
  match assoc k fields with
  | Some v => v
  | None => VUndefined
  end.

(** [v.k]: a [TypeError] on [null] and [undefined], the own property on
    an object, [undefined] on the other values (none of the property
    names the converter reads is defined on a primitive or an array). *)
Definition prop (v : value) (k : string) : result value :=
  match v with
  | VUndefined | VNull => Throw (TypeError k)
  | VObj fields => Ok (field k fields)
  | _ => Ok VUndefined
  end.

(** Observation of a result object: is [k] one of its keys, and with
    which value. *)
Definition own (k : string) (v : value) : option value :=
  match v with
  | VObj fields => assoc k fields
  | _ => None
  end.

Definition keys (v : value) : list string :=
  match v with
  | VObj fields => map fst fields
  | _ => []
  end.

(** [xs.map(f)] with a callback that may throw: elements are visited in
    order and the first exception ends the loop. *)
Fixpoint mapM {A B : Type} (f : A -> result B) (xs : list A) : result (list B) :=
  match xs with
  | [] => Ok []
  | x :: rest =>
      bind (f x) (fun y => bind (mapM f rest) (fun ys => Ok (y :: ys)))
  end.

(** Apply [f] to the value stored under [k], [dflt] when [k] is not a
    key.  This is [f (field k fields)] whenever [f VUndefined = dflt];
    written as a recursion over the fields so that a converter can call
    itself on a nested entity. *)
Definition on_field {A : Type} (f : value -> A) (dflt : A) (k : string)
  : list (string * value) -> A :=
  fix go (fields : list (string * value)) : A :=
    match fields with
    | [] => dflt
    | (k', v) :: rest => if String.eqb k k' then f v else go rest
    end.

End JS.

Export JS.

Declare Scope js_scope.
Delimit Scope js_scope with js.
Notation "'do' x <- m ; k" := (bind m (fun x => k))
  (at level 10, x name, m at level 100, k at level 200) : js_scope.
Local Open Scope js_scope.

(* ===================================================================== *)
(** ** PixelfedAPI.Converter *)
(* ===================================================================== *)

(** The five members of a notification-type namespace.  The canonical
    namespace ([NotificationType], imported from [../notification]) and
    the backend one ([PixelfedNotificationType], from [./notification])
    each declare these five string constants; the converter only ever
    compares against them and returns them, so they are taken as
    parameters. *)
Record NotificationTypes : Type := {
  Follow : string;
  Favourite : string;
  Reblog : string;
  Mention : string;
  FollowRequest : string
}.

Definition members (ns : NotificationTypes) : list string :=
  [Follow ns; Favourite ns; Reblog ns; Mention ns; FollowRequest ns].

(** [new UnknownNotificationTypeError()]: the marker carries no data. *)
Inductive UnknownNotificationTypeError : Type :=
| new_UnknownNotificationTypeError.

(** [t === c] for a string constant [c], as a [case c:] label tests it. *)
Definition strict_eq_str (t : value) (c : string) : bool :=
  match t with
  | VStr s => String.eqb s c
  | _ => false
  end.

Notation "t === c" := (strict_eq_str t c) (at level 70, no associativity).

Module Converter.

Section Enumeration.

Variable NotificationType : NotificationTypes.
Variable PixelfedNotificationType : NotificationTypes.

Definition encodeNotificationType (t : value)
  : string + UnknownNotificationTypeError :=
  if t === Follow NotificationType then
    inl (Follow PixelfedNotificationType)
  else if t === Favourite NotificationType then
    inl (Favourite PixelfedNotificationType)
  else if t === Reblog NotificationType then
    inl (Reblog PixelfedNotificationType)
  else if t === Mention NotificationType then
    inl (Mention PixelfedNotificationType)
  else if t === FollowRequest NotificationType then
    inl (FollowRequest PixelfedNotificationType)
  else
    inr new_UnknownNotificationTypeError.

Definition decodeNotificationType (t : value)
  : string + UnknownNotificationTypeError :=
  if t === Follow PixelfedNotificationType then
    inl (Follow NotificationType)
  else if t === Favourite PixelfedNotificationType then
    inl (Favourite NotificationType)
  else if t === Mention PixelfedNotificationType then
    inl (Mention NotificationType)
  else if t === Reblog PixelfedNotificationType then
    inl (Reblog NotificationType)
  else if t === FollowRequest PixelfedNotificationType then
    inl (FollowRequest NotificationType)
  else
    inr new_UnknownNotificationTypeError.

End Enumeration.

Definition account (a : value) : result value :=
  do id <- prop a "id" ;
  do username <- prop a "username" ;
  do acct <- prop a "acct" ;
  do display_name <- prop a "display_name" ;
  do locked <- prop a "locked" ;
  do discoverable <- prop a "discoverable" ;
  do created_at <- prop a "created_at" ;
  do followers_count <- prop a "followers_count" ;
  do following_count <- prop a "following_count" ;
  do statuses_count <- prop a "statuses_count" ;
  do note <- prop a "note" ;
  do url <- prop a "url" ;
  do avatar <- prop a "avatar" ;
  do avatar_static <- prop a "avatar_static" ;
  do header <- prop a "header" ;
  do header_static <- prop a "header_static" ;
  do emojis <- prop a "emojis" ;
  do fields <- prop a "fields" ;
  do source <- prop a "source" ;
  Ok (VObj [
    ("id", id);
    ("username", username);
    ("acct", acct);
    ("display_name", display_name);
    ("locked", locked);
    ("discoverable", discoverable);
    ("group", VNull);
    ("noindex", VNull);
    ("suspended", VNull);
    ("limited", VNull);
    ("created_at", created_at);
    ("followers_count", followers_count);
    ("following_count", following_count);
    ("statuses_count", statuses_count);
    ("note", note);
    ("url", url);
    ("avatar", avatar);
    ("avatar_static", avatar_static);
    ("header", header);
    ("header_static", header_static);
    ("emojis", emojis);
    ("moved", VNull);
    ("fields", fields);
    ("bot", VNull);
    ("source", source)
  ]).

(** The converters that return their argument. *)
Definition application (a : value) : value := a.
Definition attachment (a : value) : value := a.
Definition emoji (e : value) : value := e.
Definition mention (m : value) : value := m.
Definition poll (p : value) : value := p.
Definition tag (t : value) : value := t.

(** [xs.map(f)]; reached only behind an [Array.isArray] test. *)
Definition array_map (f : value -> result value) (xs : value) : result value :=
  match xs with
  | VArr items => do ys <- mapM f items ; Ok (VArr ys)
  | _ => Throw (TypeError "map")
  end.

(** [Array.isArray(xs) ? xs.map(f) : []] *)
Definition map_if_array (f : value -> result value) (xs : value) : result value :=
  if isArray xs then array_map f xs else Ok (VArr []).

(** The object literal of [status], given the converted reblog. *)
Definition status_literal (s : value) (reblog : result value) : result value :=
  do id <- prop s "id" ;
  do uri <- prop s "uri" ;
  do url <- prop s "url" ;
  do account_ <- (do a <- prop s "account" ; account a) ;
  do in_reply_to_id <- prop s "in_reply_to_id" ;
  do in_reply_to_account_id <- prop s "in_reply_to_account_id" ;
  do reblog_ <- reblog ;
  do content <- prop s "content" ;
  do created_at <- prop s "created_at" ;
  do edited_at <- prop s "edited_at" ;
  do emojis <- (do es <- prop s "emojis" ; map_if_array (fun e => Ok (emoji e)) es) ;
  do replies_count <- prop s "replies_count" ;
  do reblogs_count <- prop s "reblogs_count" ;
  do favourites_count <- prop s "favourites_count" ;
  do reblogged <- prop s "reblogged" ;
  do favourited <- prop s "favourited" ;
  do muted <- prop s "muted" ;
  do sensitive <- prop s "sensitive" ;
  do spoiler_text <- prop s "spoiler_text" ;
  do visibility <- prop s "visibility" ;
  do media_attachments <-
    (do ms <- prop s "media_attachments" ;
     map_if_array (fun m => Ok (attachment m)) ms) ;
  do mentions <- (do ms <- prop s "mentions" ; map_if_array (fun m => Ok (mention m)) ms) ;
  do tags <- prop s "tags" ;
  do poll_ <- (do p <- prop s "poll" ; Ok (if truthy p then poll p else VNull)) ;
  do application_ <-
    (do a <- prop s "application" ; Ok (if truthy a then application a else VNull)) ;
  do language <- prop s "language" ;
  do bookmarked <- (do b <- prop s "bookmarked" ; Ok (if truthy b then b else VBool false)) ;
  Ok (VObj [
    ("id", id);
    ("uri", uri);
    ("url", url);
    ("account", account_);
    ("in_reply_to_id", in_reply_to_id);
    ("in_reply_to_account_id", in_reply_to_account_id);
    ("reblog", reblog_);
    ("content", content);
    ("plain_content", VNull);
    ("created_at", created_at);
    ("edited_at", edited_at);
    ("emojis", emojis);
    ("replies_count", replies_count);
    ("reblogs_count", reblogs_count);
    ("favourites_count", favourites_count);
    ("reblogged", reblogged);
    ("favourited", favourited);
    ("muted", muted);
    ("sensitive", sensitive);
    ("spoiler_text", spoiler_text);
    ("visibility", visibility);
    ("media_attachments", media_attachments);
    ("mentions", mentions);
    ("tags", tags);
    ("card", VNull);
    ("poll", poll_);
    ("application", application_);
    ("language", language);
    ("pinned", VBool false);
    ("emoji_reactions", VArr []);
    ("bookmarked", bookmarked);
    ("quote", VBool false)
  ]).

(** [status]: the literal above with
    [reblog: s.reblog ? status(s.reblog) : null].  The recursive call is
    made where the [reblog] property is found among the fields of [s];
    [status_unfold] below gives the equation in the source's form. *)
Fixpoint status (s : value) : result value :=
  status_literal s
    (match s with
     | VObj fields =>
         on_field (fun r => if truthy r then status r else Ok VNull)
                  (Ok VNull) "reblog" fields
     | _ => do r <- prop s "reblog" ; Ok VNull
     end).

Definition context (c : value) : result value :=
  do ancestors <- (do xs <- prop c "ancestors" ; map_if_array status xs) ;
  do descendants <- (do xs <- prop c "descendants" ; map_if_array status xs) ;
  Ok (VObj [
    ("ancestors", ancestors);
    ("descendants", descendants)
  ]).

Definition conversation (c : value) : result value :=
  do id <- prop c "id" ;
  do accounts <- (do xs <- prop c "accounts" ; map_if_array account xs) ;
  do last_status <-
    (do l <- prop c "last_status" ; if truthy l then status l else Ok VNull) ;
  do unread <- prop c "unread" ;
  Ok (VObj [
    ("id", id);
    ("accounts", accounts);
    ("last_status", last_status);
    ("unread", unread)
  ]).

Definition results (r : value) : result value :=
  do accounts <- (do xs <- prop r "accounts" ; map_if_array account xs) ;
  do statuses <- (do xs <- prop r "statuses" ; map_if_array status xs) ;
  do hashtags <- (do xs <- prop r "hashtags" ; map_if_array (fun h => Ok (tag h)) xs) ;
  Ok (VObj [
    ("accounts", accounts);
    ("statuses", statuses);
    ("hashtags", hashtags)
  ]).

Section Notification.

Variable NotificationType : NotificationTypes.
Variable PixelfedNotificationType : NotificationTypes.

Definition notification (n : value)
  : result (value + UnknownNotificationTypeError) :=
  do t <- prop n "type" ;
  match decodeNotificationType NotificationType PixelfedNotificationType t with
  | inr notificationType => Ok (inr notificationType)
  | inl notificationType =>
      do st <- prop n "status" ;
      if truthy st then
        do account_ <- (do a <- prop n "account" ; account a) ;
        do created_at <- prop n "created_at" ;
        do id <- prop n "id" ;
        do status_ <- (do s <- prop n "status" ; status s) ;
        Ok (inl (VObj [
          ("account", account_);
          ("created_at", created_at);
          ("id", id);
          ("status", status_);
          ("type", VStr notificationType)
        ]))
      else
        do account_ <- (do a <- prop n "account" ; account a) ;
        do created_at <- prop n "created_at" ;
        do id <- prop n "id" ;
        Ok (inl (VObj [
          ("account", account_);
          ("created_at", created_at);
          ("id", id);
          ("type", VStr notificationType)
        ]))
  end.

End Notification.

(** More converters that return their argument ([field_] and [filter_]
    are the source's [field] and [filter]). *)
Definition announcement (a : value) : value := a.
Definition field_ (f : value) : value := f.
Definition filter_ (f : value) : value := f.
Definition history (h : value) : value := h.
Definition marker (m : value) : value := m.
Definition poll_option (p : value) : value := p.
Definition preferences (p : value) : value := p.
Definition relationship (r : value) : value := r.
Definition scheduled_status (s : value) : value := s.
Definition source (s : value) : value := s.
Definition stats (s : value) : value := s.
Definition status_params (s : value) : value := s.
Definition token (t : value) : value := t.

Definition async_attachment (a : value) : result value :=
  do u <- prop a "url" ;
  if truthy u then
    do id <- prop a "id" ;
    do type_ <- prop a "type" ;
    do url <- prop a "url" ;
    do remote_url <- prop a "remote_url" ;
    do preview_url <- prop a "preview_url" ;
    do text_url <- prop a "text_url" ;
    do meta <- prop a "meta" ;
    do description <- prop a "description" ;
    do blurhash <- prop a "blurhash" ;
    Ok (VObj [
      ("id", id);
      ("type", type_);
      ("url", url);
      ("remote_url", remote_url);
      ("preview_url", preview_url);
      ("text_url", text_url);
      ("meta", meta);
      ("description", description);
      ("blurhash", blurhash)
    ])
  else
    Ok a.

(** [i.configuration.<group>.<key>] *)
Definition configuration_of (i : value) (group key : string) : result value :=
  do c <- prop i "configuration" ;
  do g <- prop c group ;
  prop g key.

Definition instance (i : value) : result value :=
  do uri <- prop i "uri" ;
  do title <- prop i "title" ;
  do description <- prop i "description" ;
  do email <- prop i "email" ;
  do version <- prop i "version" ;
  do thumbnail <- prop i "thumbnail" ;
  do stats_ <- (do s <- prop i "stats" ; Ok (stats s)) ;
  do languages <- prop i "languages" ;
  do registrations <- prop i "registrations" ;
  do approval_required <- prop i "approval_required" ;
  do max_characters <- configuration_of i "statuses" "max_characters" ;
  do max_media_attachments <-
    configuration_of i "statuses" "max_media_attachments" ;
  do characters_reserved_per_url <-
    configuration_of i "statuses" "characters_reserved_per_url" ;
  do max_options <- configuration_of i "polls" "max_options" ;
  do max_characters_per_option <-
    configuration_of i "polls" "max_characters_per_option" ;
  do min_expiration <- configuration_of i "polls" "min_expiration" ;
  do max_expiration <- configuration_of i "polls" "max_expiration" ;
  do contact_account <- (do a <- prop i "contact_account" ; account a) ;
  do rules <- prop i "rules" ;
  Ok (VObj [
    ("uri", uri);
    ("title", title);
    ("description", description);
    ("email", email);
    ("version", version);
    ("thumbnail", thumbnail);
    ("urls", VNull);
    ("stats", stats_);
    ("languages", languages);
    ("registrations", registrations);
    ("approval_required", approval_required);
    ("configuration", VObj [
      ("statuses", VObj [
        ("max_characters", max_characters);
        ("max_media_attachments", max_media_attachments);
        ("characters_reserved_per_url", characters_reserved_per_url)
      ]);
      ("polls", VObj [
        ("max_options", max_options);
        ("max_characters_per_option", max_characters_per_option);
        ("min_expiration", min_expiration);
        ("max_expiration", max_expiration)
      ])
    ]);
    ("contact_account", contact_account);
    ("rules", rules)
  ]).

Definition report (r : value) : result value :=
  do id <- prop r "id" ;
  do action_taken <- prop r "action_taken" ;
  do action_taken_at <- prop r "action_taken_at" ;
  do status_ids <- prop r "status_ids" ;
  do rule_ids <- prop r "rule_ids" ;
  do category <- prop r "category" ;
  do comment <- prop r "comment" ;
  do forwarded <- prop r "forwarded" ;
  do target_account <- (do a <- prop r "target_account" ; account a) ;
  Ok (VObj [
    ("id", id);
    ("action_taken", action_taken);
    ("action_taken_at", action_taken_at);
    ("status_ids", status_ids);
    ("rule_ids", rule_ids);
    ("category", category);
    ("comment", comment);
    ("forwarded", forwarded);
    ("target_account", target_account)
  ]).

End Converter.

(* ===================================================================== *)
(** ** The transport: axios *)
(* ===================================================================== *)

Module Axios.

(** An [AbortController] is known by the order of its allocation; its
    [signal] is the same name. *)
Definition AbortController : Type := nat.

(** [maxContentLength] and [maxBodyLength] are only ever [Infinity]. *)
Inductive limit : Type :=
| Infinity.

(** A request configuration: an object each of whose keys may be absent. *)
Record AxiosRequestConfig : Type := {
  params : option value;
  data : option value;
  headers : option (gmap string string);
  maxContentLength : option limit;
  maxBodyLength : option limit
}.

(** [{}] *)
Definition empty_config : AxiosRequestConfig :=
  {| params := None; data := None; headers := None;
     maxContentLength := None; maxBodyLength := None |}.

Definition later_wins {A : Type} (earlier later : option A) : option A :=
  match later with
  | Some x => Some x
  | None => earlier
  end.

(** One round of [objectAssignDeep]: every key of [o] is written into
    [out].  A leaf value replaces what was there; the [headers] object is
    merged key by key, the later object winning on a common key. *)
Definition assign_deep (out o : AxiosRequestConfig) : AxiosRequestConfig :=
  {| params := later_wins (params out) (params o);
     data := later_wins (data out) (data o);
     headers :=
       match headers o, headers out with
       | Some h, Some h0 => Some (h ∪ h0)
       | Some h, None => Some h
       | None, h0 => h0
       end;
     maxContentLength := later_wins (maxContentLength out) (maxContentLength o);
     maxBodyLength := later_wins (maxBodyLength out) (maxBodyLength o) |}.

(** [objectAssignDeep(target, ...objects)] *)
Definition objectAssignDeep (target : AxiosRequestConfig)
  (objects : list AxiosRequestConfig) : AxiosRequestConfig :=
  foldl assign_deep target objects.

Inductive Method : Type :=
| GET | PUT | PUT_FORM | PATCH | PATCH_FORM | POST | POST_FORM | DELETE.

(** What leaves for the network: the call's arguments, and the signal the
    library took from its defaults (no caller ever passes one). *)
Record Request : Type := {
  method : Method;
  url : string;
  body : option value;
  config : AxiosRequestConfig;
  signal : option AbortController
}.

Record AxiosResponse : Type := {
  resp_data : value;
  resp_status : Z;
  resp_statusText : string;
  resp_headers : gmap string string;
  resp_config : AxiosRequestConfig
}.

(** The failures a verb method can end with: the transport's own abort
    failure, any other transport failure, and megalodon's
    [RequestCanceledError] (from [../cancel]). *)
Inductive Error : Type :=
| CanceledError (message : string)
| AxiosError (message : string) (code : string)
| RequestCanceledError (message : string).

Definition message (e : Error) : string :=
  match e with
  | CanceledError m => m
  | AxiosError m _ => m
  | RequestCanceledError m => m
  end.

(** [axios.isCancel] *)
Definition isCancel (e : Error) : bool :=
  match e with
  | CanceledError _ => true
  | _ => false
  end.

(** A settled promise. *)
Inductive Promise (A : Type) : Type :=
| Fulfilled (a : A)
| Rejected (e : Error).
Arguments Fulfilled {A} a.
Arguments Rejected {A} e.

(** [p.catch(h)]: the handler sees a rejection and settles the result. *)
Definition catch {A : Type} (p : Promise A) (h : Error -> Promise A) : Promise A :=
  match p with
  | Fulfilled a => Fulfilled a
  | Rejected e => h e
  end.

(** [p.then(f)] with a handler that returns. *)
Definition then_ {A B : Type} (p : Promise A) (f : A -> B) : Promise B :=
  match p with
  | Fulfilled a => Fulfilled (f a)
  | Rejected e => Rejected e
  end.

(** The state of the library and of the controllers: how many controllers
    exist, which ones were aborted, and [axios.defaults.signal]. *)
Record World : Type := {
  controllers : nat;
  aborted : gset AbortController;
  defaults_signal : option AbortController
}.

Definition initial : World :=
  {| controllers := 0; aborted := ∅; defaults_signal := None |}.

(** [new AbortController()] *)
Definition new_AbortController (w : World) : AbortController * World :=
  (controllers w,
   {| controllers := S (controllers w);
      aborted := aborted w;
      defaults_signal := defaults_signal w |}).

(** [axios.defaults.signal = s] *)
Definition set_defaults_signal (s : AbortController) (w : World) : World :=
  {| controllers := controllers w;
     aborted := aborted w;
     defaults_signal := Some s |}.

(** [c.abort()] *)
Definition abort (c : AbortController) (w : World) : World :=
  {| controllers := controllers w;
     aborted := {[ c ]} ∪ aborted w;
     defaults_signal := defaults_signal w |}.

(** [axios.get(url, options)] and its siblings: the configuration is
    merged with the defaults when the call is made, which is where the
    request gets its signal. *)
Definition request (m : Method) (u : string) (b : option value)
  (options : AxiosRequestConfig) (w : World) : Request :=
  {| method := m; url := u; body := b; config := options;
     signal := defaults_signal w |}.

(** How a request in flight settles in world [w]: rejected with the
    abort failure when its signal is aborted, else as the server
    answers. *)
Definition settle (server : Request -> Promise AxiosResponse) (w : World)
  (r : Request) : Promise AxiosResponse :=
  match signal r with
  | Some c =>
      if bool_decide (c ∈ aborted w) then Rejected (CanceledError "canceled")
      else server r
  | None => server r
  end.

End Axios.

(* ===================================================================== *)
(** ** PixelfedAPI.Client *)
(* ===================================================================== *)

Module Client.

Import Axios.

(** [Response<T>] of megalodon. *)
Record Response : Type := {
  res_data : value;
  res_status : Z;
  res_statusText : string;
  res_headers : gmap string string
}.

Record Client : Type := {
  accessToken : option string;
  baseUrl : string;
  abortController : AbortController
}.

(** What a verb method returns: the request it handed to axios and the
    handlers it chained on axios' promise. *)
Record Pending : Type := {
  sent : Request;
  handlers : Promise AxiosResponse -> Promise Response
}.

(** The promise of a verb method, once the request has settled in [w]. *)
Definition outcome (server : Request -> Promise AxiosResponse) (w : World)
  (p : Pending) : Promise Response :=
  handlers p (settle server w (sent p)).

Definition constructor (baseUrl : string) (accessToken : option string)
  (w : World) : Client * World :=
  let '(controller, w1) := new_AbortController w in
  ({| accessToken := accessToken; baseUrl := baseUrl;
      abortController := controller |},
   set_defaults_signal controller w1).

(** [if (this.accessToken)]: [null] and the empty string are falsy. *)
Definition token_set (c : Client) : option string :=
  match accessToken c with
  | Some t => if String.eqb t "" then None else Some t
  | None => None
  end.

(** The [if (this.accessToken) { options = objectAssignDeep(...) }] that
    every verb method starts with. *)
Definition authorize (c : Client) (options : AxiosRequestConfig)
  : AxiosRequestConfig :=
  match token_set c with
  | Some t =>
      objectAssignDeep empty_config
        [options;
         {| params := None; data := None;
            headers := Some {[ "Authorization" := "Bearer " +:+ t ]};
            maxContentLength := None; maxBodyLength := None |}]
  | None => options
  end.

(** The [.catch] of the six verbs that have one. *)
Definition rethrow (err : Error) : Promise AxiosResponse :=
  if isCancel err then Rejected (RequestCanceledError (message err))
  else Rejected err.

(** The [.then] of every verb. *)
Definition envelope (resp : AxiosResponse) : Response :=
  {| res_data := resp_data resp;
     res_status := resp_status resp;
     res_statusText := resp_statusText resp;
     res_headers := resp_headers resp |}.

Definition get (c : Client) (path : string) (params : value)
  (headers : gmap string string) (pathIsFullyQualified : bool)
  (w : World) : Pending :=
  let options :=
    {| Axios.params := Some params; data := None; Axios.headers := Some headers;
       maxContentLength := Some Infinity; maxBodyLength := Some Infinity |} in
  let options := authorize c options in
  {| sent := request GET ((if pathIsFullyQualified then "" else baseUrl c) +:+ path)
               None options w;
     handlers := fun p => then_ (catch p rethrow) envelope |}.

Definition put (c : Client) (path : string) (params : value)
  (headers : gmap string string) (w : World) : Pending :=
  let options :=
    {| Axios.params := None; data := None; Axios.headers := Some headers;
       maxContentLength := Some Infinity; maxBodyLength := Some Infinity |} in
  let options := authorize c options in
  {| sent := request PUT (baseUrl c +:+ path) (Some params) options w;
     handlers := fun p => then_ (catch p rethrow) envelope |}.

Definition putForm (c : Client) (path : string) (params : value)
  (headers : gmap string string) (w : World) : Pending :=
  let options :=
    {| Axios.params := None; data := None; Axios.headers := Some headers;
       maxContentLength := Some Infinity; maxBodyLength := Some Infinity |} in
  let options := authorize c options in
  {| sent := request PUT_FORM (baseUrl c +:+ path) (Some params) options w;
     handlers := fun p => then_ (catch p rethrow) envelope |}.

Definition patch (c : Client) (path : string) (params : value)
  (headers : gmap string string) (w : World) : Pending :=
  let options :=
    {| Axios.params := None; data := None; Axios.headers := Some headers;
       maxContentLength := Some Infinity; maxBodyLength := Some Infinity |} in
  let options := authorize c options in
  {| sent := request PATCH (baseUrl c +:+ path) (Some params) options w;
     handlers := fun p => then_ (catch p rethrow) envelope |}.

Definition patchForm (c : Client) (path : string) (params : value)
  (headers : gmap string string) (w : World) : Pending :=
  let options :=
    {| Axios.params := None; data := None; Axios.headers := Some headers;
       maxContentLength := Some Infinity; maxBodyLength := Some Infinity |} in
  let options := authorize c options in
  {| sent := request PATCH_FORM (baseUrl c +:+ path) (Some params) options w;
     handlers := fun p => then_ (catch p rethrow) envelope |}.

Definition post (c : Client) (path : string) (params : value)
  (headers : gmap string string) (w : World) : Pending :=
  let options :=
    {| Axios.params := None; data := None; Axios.headers := Some headers;
       maxContentLength := Some Infinity; maxBodyLength := Some Infinity |} in
  let options := authorize c options in
  {| sent := request POST (baseUrl c +:+ path) (Some params) options w;
     handlers := fun p => then_ p envelope |}.

Definition postForm (c : Client) (path : string) (params : value)
  (headers : gmap string string) (w : World) : Pending :=
  let options :=
    {| Axios.params := None; data := None; Axios.headers := Some headers;
       maxContentLength := Some Infinity; maxBodyLength := Some Infinity |} in
  let options := authorize c options in
  {| sent := request POST_FORM (baseUrl c +:+ path) (Some params) options w;
     handlers := fun p => then_ p envelope |}.

Definition del (c : Client) (path : string) (params : value)
  (headers : gmap string string) (w : World) : Pending :=
  let options :=
    {| Axios.params := None; data := Some params; Axios.headers := Some headers;
       maxContentLength := Some Infinity; maxBodyLength := Some Infinity |} in
  let options := authorize c options in
  {| sent := request DELETE (baseUrl c +:+ path) None options w;
     handlers := fun p => then_ (catch p rethrow) envelope |}.

Definition cancel (c : Client) (w : World) : World :=
  abort (abortController c) w.

(** The eight verb methods of [Interface], as one call. *)
Inductive Verb : Type :=
| Get (pathIsFullyQualified : bool)
| Put | PutForm | Patch | PatchForm | Post | PostForm | Del.

Definition call (v : Verb) (c : Client) (path : string) (params : value)
  (headers : gmap string string) (w : World) : Pending :=
  match v with
  | Get pathIsFullyQualified => get c path params headers pathIsFullyQualified w
  | Put => put c path params headers w
  | PutForm => putForm c path params headers w
  | Patch => patch c path params headers w
  | PatchForm => patchForm c path params headers w
  | Post => post c path params headers w
  | PostForm => postForm c path params headers w
  | Del => del c path params headers w
  end.

End Client.

(* ===================================================================== *)
(** ** Inputs the converters return on *)
(* ===================================================================== *)

Import Converter.

(** A backend Status as far as [status] needs it in order to return: an
    object whose [account] can be read from, and whose [reblog], when
    truthy, is such an object again. *)
Inductive status_input : value -> Prop :=
| status_input_obj (fields : list (string * value)) :
    nullish (field "account" fields) = false ->
    (truthy (field "reblog" fields) = true ->
     status_input (field "reblog" fields)) ->
    status_input (VObj fields).

(** A backend value in the place of an array of statuses: nothing is
    asked of a value that is not an array. *)
Definition statuses_input (v : value) : Prop :=
  forall items, v = VArr items -> Forall status_input items.

(** The same for an array of accounts. *)
Definition accounts_input (v : value) : Prop :=
  forall items, v = VArr items -> Forall (fun a => nullish a = false) items.

(** The value of [Array.isArray(v) ? v.map(x => f(x)) : []] for one of
    the converters that return their argument. *)
Definition kept_if_array (v : value) : value :=
  if isArray v then v else VArr [].

(** The object [status] builds from the fields of its argument, once the
    nested [account] and [reblog] conversions have returned. *)
Definition status_object (fields : list (string * value))
  (account_ reblog_ : value) : value :=
  VObj [
    ("id", field "id" fields);
    ("uri", field "uri" fields);
    ("url", field "url" fields);
    ("account", account_);
    ("in_reply_to_id", field "in_reply_to_id" fields);
    ("in_reply_to_account_id", field "in_reply_to_account_id" fields);
    ("reblog", reblog_);
    ("content", field "content" fields);
    ("plain_content", VNull);
    ("created_at", field "created_at" fields);
    ("edited_at", field "edited_at" fields);
    ("emojis", kept_if_array (field "emojis" fields));
    ("replies_count", field "replies_count" fields);
    ("reblogs_count", field "reblogs_count" fields);
    ("favourites_count", field "favourites_count" fields);
    ("reblogged", field "reblogged" fields);
    ("favourited", field "favourited" fields);
    ("muted", field "muted" fields);
    ("sensitive", field "sensitive" fields);
    ("spoiler_text", field "spoiler_text" fields);
    ("visibility", field "visibility" fields);
    ("media_attachments", kept_if_array (field "media_attachments" fields));
    ("mentions", kept_if_array (field "mentions" fields));
    ("tags", field "tags" fields);
    ("card", VNull);
    ("poll", if truthy (field "poll" fields) then field "poll" fields else VNull);
    ("application",
      if truthy (field "application" fields) then field "application" fields
      else VNull);
    ("language", field "language" fields);
    ("pinned", VBool false);
    ("emoji_reactions", VArr []);
    ("bookmarked",
      if truthy (field "bookmarked" fields) then field "bookmarked" fields
      else VBool false);
    ("quote", VBool false)
  ].

(** A chain of [n] reblogs over a status that reblogs nothing. *)
Fixpoint reblog_chain (n : nat) : value :=
  match n with
  | O => VObj [("id", VStr "0"); ("account", VObj [("id", VStr "a")]);
               ("reblog", VNull)]
  | S k => VObj [("id", VStr "1"); ("account", VObj [("id", VStr "a")]);
                 ("reblog", reblog_chain k)]
  end.

(** How many statuses hang below a converted status through [reblog]. *)
Fixpoint reblog_depth (v : value) : nat :=
  match v with
  | VObj fields =>
      on_field (fun r => if truthy r then S (reblog_depth r) else O) O
               "reblog" fields
  | _ => O
  end.

(* ===================================================================== *)
(** ** Sample entities *)
(* ===================================================================== *)

Module Sample.

(** Modelled from the spec: the constants of [../notification], which is
    not among the sources at hand; the five notification kinds the
    enumeration mapper knows (follow, favourite, reblog, mention,
    follow-request), spelled as the wire format spells them. *)
Definition MegalodonNotificationType : NotificationTypes :=
  {| Follow := "follow"; Favourite := "favourite"; Reblog := "reblog";
     Mention := "mention"; FollowRequest := "follow_request" |}.

(** Modelled from the spec: the constants of [./notification], the
    backend's namespace of the same five kinds. *)
Definition PixelfedNotificationType : NotificationTypes :=
  {| Follow := "follow"; Favourite := "favourite"; Reblog := "reblog";
     Mention := "mention"; FollowRequest := "follow_request" |}.

(** A backend account whose response has no [discoverable]. *)
Definition alice : value :=
  VObj [("id", VStr "1"); ("username", VStr "alice"); ("acct", VStr "alice");
        ("display_name", VStr "Alice"); ("locked", VBool false);
        ("followers_count", VNum 3); ("following_count", VNum 5);
        ("statuses_count", VNum 8); ("note", VStr ""); ("url", VStr "https://pixelfed.social/alice");
        ("avatar", VStr "a.png"); ("created_at", VStr "2023-01-01");
        ("avatar_static", VStr "a.png"); ("bot", VBool true);
        ("emojis", VArr []); ("fields", VArr []); ("header", VStr "h.png");
        ("header_static", VStr "h.png"); ("last_status_at", VNull)].

Definition photo_fields : list (string * value) :=
  [("id", VStr "10"); ("uri", VStr "u10"); ("url", VStr "u10");
   ("account", alice); ("in_reply_to_id", VNull);
   ("in_reply_to_account_id", VNull); ("reblog", VNull);
   ("content", VStr "a photo"); ("created_at", VStr "2023-02-01");
   ("edited_at", VNull); ("emojis", VArr []); ("replies_count", VNum 0);
   ("reblogs_count", VNum 1); ("favourites_count", VNum 2);
   ("reblogged", VBool false); ("favourited", VBool false);
   ("muted", VBool false); ("sensitive", VBool false);
   ("spoiler_text", VStr ""); ("visibility", VStr "public");
   ("media_attachments", VArr [VObj [("id", VStr "m1")]]);
   ("mentions", VArr []); ("tags", VArr []); ("poll", VNull);
   ("application", VNull); ("language", VStr "en")].

(** A status that reblogs nothing and has no [bookmarked]. *)
Definition photo : value := VObj photo_fields.

Definition boost_fields : list (string * value) :=
  [("id", VStr "11"); ("account", alice); ("reblog", photo);
   ("content", VStr ""); ("emojis", VNull); ("media_attachments", VStr "none");
   ("tags", VArr []); ("bookmarked", VBool true)].

(** A status that reblogs [photo]; its [emojis] and [media_attachments]
    are not arrays and its [mentions] is absent. *)
Definition boost : value := VObj boost_fields.

(** A status whose [tags] is [null]. *)
Definition untagged_fields : list (string * value) :=
  [("id", VStr "12"); ("account", alice); ("reblog", VNull); ("tags", VNull)].

Definition untagged : value := VObj untagged_fields.

(** Notifications: a follow, which carries no status, a favourite of
    [photo], and one of a kind the mapper does not know. *)
Definition followed_fields : list (string * value) :=
  [("account", alice); ("created_at", VStr "2023-03-01"); ("id", VStr "20");
   ("type", VStr "follow")].

Definition favourited_fields : list (string * value) :=
  [("account", alice); ("created_at", VStr "2023-03-02"); ("id", VStr "21");
   ("status", photo); ("type", VStr "favourite")].

Definition poll_ended : value :=
  VObj [("account", alice); ("created_at", VStr "2023-03-03"); ("id", VStr "22");
        ("type", VStr "poll")].

(** A context whose [ancestors] is [null]. *)
Definition thread : value :=
  VObj [("ancestors", VNull); ("descendants", VArr [photo])].

(** Two clients made one after the other, and a client made with the
    empty string for a token. *)
Definition first_client : Client.Client * Axios.World :=
  Client.constructor "https://b.example" (Some "token-b") Axios.initial.

Definition second_client : Client.Client * Axios.World :=
  Client.constructor "https://a.example" (Some "token-a") (snd first_client).

Definition blank_client : Client.Client * Axios.World :=
  Client.constructor "https://pixelfed.social" (Some "") Axios.initial.

Definition caller_headers : gmap string string :=
  {[ "Accept" := "application/json" ]}.

(** A server that answers every request with [200 OK] and [{"ok": true}]. *)
Definition ok_server (r : Axios.Request) : Axios.Promise Axios.AxiosResponse :=
  Axios.Fulfilled
    {| Axios.resp_data := VObj [("ok", VBool true)];
       Axios.resp_status := 200;
       Axios.resp_statusText := "OK";
       Axios.resp_headers := ∅;
       Axios.resp_config := Axios.config r |}.

End Sample.

(* ===================================================================== *)
(** ** Worlds a program can reach, and more sample entities *)
(* ===================================================================== *)

(** Every controller a world mentions has been allocated in it. *)
Definition allocated (w : Axios.World) : Prop :=
  (forall k, k ∈ Axios.aborted w -> k < Axios.controllers w) /\
  (forall k, Axios.defaults_signal w = Some k -> k < Axios.controllers w).

Module Sample2.

(** An attachment still being processed (no [url] yet), and one that is
    ready and carries a key the canonical attachment does not have. *)
Definition processing : value :=
  VObj [("id", VStr "m2"); ("type", VStr "image"); ("url", VNull);
        ("preview_url", VStr "p.png")].

Definition ready : value :=
  VObj [("id", VStr "m3"); ("type", VStr "image"); ("url", VStr "m3.png");
        ("preview_url", VStr "p3.png"); ("license", VStr "cc0")].

Definition pixelfed_social : value :=
  VObj [("uri", VStr "pixelfed.social"); ("title", VStr "pixelfed");
        ("short_description", VStr "photos"); ("description", VStr "photo sharing");
        ("email", VStr "hello@pixelfed.org"); ("version", VStr "3.5.3");
        ("thumbnail", VNull);
        ("stats", VObj [("user_count", VNum 10)]);
        ("languages", VArr [VStr "en"]); ("registrations", VBool true);
        ("approval_required", VBool false);
        ("configuration", VObj [
           ("statuses", VObj [("max_characters", VNum 500);
                              ("max_media_attachments", VNum 4);
                              ("characters_reserved_per_url", VNum 23)]);
           ("media_attachments", VObj [("image_size_limit", VNum 15000)]);
           ("polls", VObj [("max_options", VNum 4);
                           ("max_characters_per_option", VNum 50);
                           ("min_expiration", VNum 300);
                           ("max_expiration", VNum 2629746)])]);
        ("contact_account", Sample.alice); ("rules", VArr [])].

Definition spam_report : value :=
  VObj [("id", VStr "r1"); ("action_taken", VBool false);
        ("category", VStr "spam"); ("comment", VStr "");
        ("forwarded", VBool false); ("target_account", Sample.alice)].

(** A notification of a known kind whose account is missing. *)
Definition orphan : value :=
  VObj [("created_at", VStr "2023-03-04"); ("id", VStr "23");
        ("type", VStr "mention")].

Definition inbox : value :=
  VObj [("id", VStr "c1"); ("accounts", VArr [Sample.alice]);
        ("last_status", VNull); ("unread", VBool true)].

Definition search_hit : value :=
  VObj [("accounts", VArr [Sample.alice]); ("statuses", VArr [Sample.boost]);
        ("hashtags", VArr [VObj [("name", VStr "cats")]])].

(** A server that refuses every request. *)
Definition failing_server (r : Axios.Request) : Axios.Promise Axios.AxiosResponse :=
  Axios.Rejected (Axios.AxiosError "Request failed with status code 500"
                    "ERR_BAD_RESPONSE").

End Sample2.

(* ===================================================================== *)
(** ** Properties of the converter *)
(* ===================================================================== *)

Section ConverterFacts.

Lemma on_field_field {A : Type} (f : value -> A) (dflt : A) (k : string)
  (fields : list (string * value)) :
  f VUndefined = dflt -> on_field f dflt k fields = f (field k fields).
Proof.
  intros Hd. unfold field.
  induction fields as [|[k' v] rest IH]; simpl.
  - now rewrite Hd.
  - destruct (String.eqb k k'); [reflexivity | exact IH].
Qed.

(** The equation of [status] as the source has it. *)
Lemma status_unfold (s : value) :
  status s =
  status_literal s
    (do r <- prop s "reblog" ; if truthy r then status r else Ok VNull).
Proof.
  destruct s as [| | b | n | str | items | fields];
    [reflexivity | reflexivity | reflexivity | reflexivity | reflexivity
    | reflexivity | ].
  cbn [status prop bind].
  apply (f_equal (status_literal (VObj fields))).
  now apply on_field_field.
Qed.

Lemma mapM_pure (f : value -> value) (items : list value) :
  mapM (fun x => Ok (f x)) items = Ok (map f items).
Proof.
  induction items as [|x rest IH]; simpl; [reflexivity|].
  now rewrite IH.
Qed.

Lemma map_if_array_id (v : value) :
  map_if_array (fun x => Ok x) v = Ok (kept_if_array v).
Proof.
  unfold map_if_array, kept_if_array.
  destruct v; simpl; try reflexivity.
  rewrite (mapM_pure (fun x => x)). simpl. now rewrite map_id.
Qed.

Lemma map_if_array_not_array (f : value -> result value) (v : value) :
  isArray v = false -> map_if_array f v = Ok (VArr []).
Proof. unfold map_if_array. now intros ->. Qed.

Lemma account_returns (a : value) :
  nullish a = false -> exists o, account a = Ok o.
Proof.
  destruct a; simpl; try discriminate; intros _; eexists; reflexivity.
Qed.

(** What [status] returns on an object, in full. *)
Lemma status_eval (fields : list (string * value)) (account_ reblog_ : value) :
  account (field "account" fields) = Ok account_ ->
  (if truthy (field "reblog" fields) then status (field "reblog" fields)
   else Ok VNull) = Ok reblog_ ->
  status (VObj fields) = Ok (status_object fields account_ reblog_).
Proof.
  intros Ha Hr.
  rewrite status_unfold. unfold status_literal.
  cbn [prop bind]. rewrite Ha, Hr. cbn [bind].
  unfold emoji, attachment, mention, poll, application.
  rewrite !map_if_array_id. reflexivity.
Qed.

Lemma status_returns (s : value) :
  status_input s -> exists o, status s = Ok o.
Proof.
  induction 1 as [fields Ha _ IH].
  destruct (account_returns _ Ha) as [acct Hacct].
  destruct (truthy (field "reblog" fields)) eqn:Ht.
  - destruct (IH eq_refl) as [r Hr].
    exists (status_object fields acct r).
    apply status_eval; [assumption | now rewrite Ht].
  - exists (status_object fields acct VNull).
    apply status_eval; [assumption | now rewrite Ht].
Qed.

Lemma status_input_inv (fields : list (string * value)) :
  status_input (VObj fields) ->
  nullish (field "account" fields) = false /\
  (truthy (field "reblog" fields) = true ->
   status_input (field "reblog" fields)).
Proof. inversion 1; subst; auto. Qed.

(** Induction over a value and, with it, over the values it holds. *)
Lemma value_nested_ind (P : value -> Prop) :
  P VUndefined -> P VNull ->
  (forall b, P (VBool b)) -> (forall n, P (VNum n)) -> (forall s, P (VStr s)) ->
  (forall items, Forall P items -> P (VArr items)) ->
  (forall fields, Forall (fun kv => P (snd kv)) fields -> P (VObj fields)) ->
  forall v, P v.
Proof.
  intros Hu Hn Hb Hz Hs Ha Ho.
  refine (fix go (v : value) : P v :=
            match v with
            | VUndefined => Hu
            | VNull => Hn
            | VBool b => Hb b
            | VNum n => Hz n
            | VStr s => Hs s
            | VArr items =>
                Ha items
                  ((fix all (l : list value) : Forall P l :=
                      match l with
                      | [] => @List.Forall_nil value P
                      | x :: l' => @List.Forall_cons value P x l' (go x) (all l')
                      end) items)
            | VObj fields =>
                Ho fields
                  ((fix all (l : list (string * value))
                      : Forall (fun kv => P (snd kv)) l :=
                      match l with
                      | [] => @List.Forall_nil (string * value) (fun kv => P (snd kv))
                      | kv :: l' =>
                          @List.Forall_cons (string * value)
                            (fun kv => P (snd kv)) kv l' (go (snd kv)) (all l')
                      end) fields)
            end).
Qed.

Lemma field_truthy_In (k : string) (fields : list (string * value)) :
  truthy (field k fields) = true -> exists k', In (k', field k fields) fields.
Proof.
  unfold field. induction fields as [|[k' v] rest IH]; simpl.
  - discriminate.
  - destruct (String.eqb k k').
    + intros _. exists k'. now left.
    + intros Ht. destruct (IH Ht) as [k'' Hin]. exists k''. now right.
Qed.

Lemma account_Ok_inv (a o : value) : account a = Ok o -> nullish a = false.
Proof. destruct a; intros H; try reflexivity; discriminate H. Qed.

Lemma bind_Ok_inv {A B : Type} (m : result A) (k : A -> result B) (b : B) :
  bind m k = Ok b -> exists a, m = Ok a /\ k a = Ok b.
Proof. destruct m as [a|e]; simpl; [eauto | discriminate]. Qed.

(** [status_input] is exactly where [status] returns: on anything else it
    throws. *)
Lemma status_Ok_input (s : value) :
  (exists o, status s = Ok o) -> status_input s.
Proof.
  induction s as [| | | | | |fields IH] using value_nested_ind;
    intros [o Ho].
  (* [null] and [undefined] have no property; on a boolean, a number, a
     string or an array [s.account] is undefined and [account] throws *)
  1-6: (rewrite status_unfold in Ho; unfold status_literal in Ho;
        cbn in Ho; discriminate Ho).
  rewrite status_unfold in Ho. unfold status_literal in Ho.
    cbn [prop bind] in Ho.
    destruct (account (field "account" fields)) as [acct|e] eqn:Ha;
      [|discriminate Ho].
    cbn [bind] in Ho.
    apply bind_Ok_inv in Ho as [r [Hr _]].
  constructor.
  - eapply account_Ok_inv; eassumption.
  - intros Ht. rewrite Ht in Hr.
    destruct (field_truthy_In _ _ Ht) as [k' Hin].
    rewrite List.Forall_forall in IH.
    apply (IH _ Hin). now exists r.
Qed.

End ConverterFacts.

(* ===================================================================== *)
(** ** Accounts and statuses *)
(* ===================================================================== *)

Lemma status_input_eval (s : value) :
  status_input s ->
  exists fields account_ reblog_,
    s = VObj fields /\
    account (field "account" fields) = Ok account_ /\
    (if truthy (field "reblog" fields) then status (field "reblog" fields)
     else Ok VNull) = Ok reblog_ /\
    status s = Ok (status_object fields account_ reblog_).
Proof.
  intros Hs. destruct Hs as [fields Ha Hr].
  destruct (account_returns _ Ha) as [acct Hacct].
  assert (exists r, (if truthy (field "reblog" fields)
                     then status (field "reblog" fields) else Ok VNull) = Ok r)
    as [r Hreblog].
  { destruct (truthy (field "reblog" fields)); [|now exists VNull].
    apply status_returns. now apply Hr. }
  exists fields, acct, r. repeat split; try assumption.
  now apply status_eval.
Qed.

(** C5.  Converting a backend Account (any value a property can be read
    from) returns a canonical Account in which [group], [noindex],
    [suspended], [limited], [moved] and [bot] are keys holding [null]; the
    result always has the same twenty-five keys, and a response without
    [discoverable] still gets the [discoverable] key (holding
    [undefined]). *)
Theorem account_null_fields (a : value) :
  nullish a = false ->
  exists o,
    account a = Ok o /\
    own "group" o = Some VNull /\
    own "noindex" o = Some VNull /\
    own "suspended" o = Some VNull /\
    own "limited" o = Some VNull /\
    own "moved" o = Some VNull /\
    own "bot" o = Some VNull /\
    keys o =
      ["id"; "username"; "acct"; "display_name"; "locked"; "discoverable";
       "group"; "noindex"; "suspended"; "limited"; "created_at";
       "followers_count"; "following_count"; "statuses_count"; "note"; "url";
       "avatar"; "avatar_static"; "header"; "header_static"; "emojis"; "moved";
       "fields"; "bot"; "source"] /\
    (own "discoverable" a = None -> own "discoverable" o = Some VUndefined).
Proof.
  intros Ha.
  destruct a as [| | b | n | str | items | fields]; try discriminate Ha;
    (eexists; split; [reflexivity|]; repeat split; try discriminate).
  all: try (intros _; reflexivity).
  cbn [own]. intros Hd. unfold field. now rewrite Hd.
Qed.

Lemma account_null_fields_witness :
  nullish Sample.alice = false /\
  own "discoverable" Sample.alice = None /\
  exists o,
    account Sample.alice = Ok o /\
    own "bot" o = Some VNull /\
    own "discoverable" o = Some VUndefined.
Proof.
  split; [reflexivity|]. split; [reflexivity|].
  destruct (account_null_fields Sample.alice eq_refl)
    as (o & Ho & _ & _ & _ & _ & _ & Hbot & _ & Hd).
  exists o. split; [exact Ho|]. split; [exact Hbot|].
  apply Hd. reflexivity.
Defined.

(** C10.  For every backend Status the converter returns on, the result
    has [plain_content] and [card] [null], [pinned] and [quote] [false],
    [emoji_reactions] the empty array, and [bookmarked] the backend's
    value when that is truthy and [false] otherwise; so a Status without
    [bookmarked] gets [bookmarked: false]. *)
Theorem status_constant_fields (s : value) :
  status_input s ->
  exists o b,
    status s = Ok o /\
    prop s "bookmarked" = Ok b /\
    own "plain_content" o = Some VNull /\
    own "card" o = Some VNull /\
    own "pinned" o = Some (VBool false) /\
    own "emoji_reactions" o = Some (VArr []) /\
    own "quote" o = Some (VBool false) /\
    own "bookmarked" o = Some (if truthy b then b else VBool false) /\
    (own "bookmarked" s = None -> own "bookmarked" o = Some (VBool false)).
Proof.
  intros Hs.
  destruct (status_input_eval s Hs) as (fields & acct & r & -> & _ & _ & Ho).
  exists (status_object fields acct r), (field "bookmarked" fields).
  split; [exact Ho|]. split; [reflexivity|].
  repeat split.
  cbn [own]. intros Hb. cbn. unfold field. now rewrite Hb.
Qed.

Lemma status_input_photo : status_input Sample.photo.
Proof. constructor; [reflexivity | discriminate]. Qed.

Lemma status_input_boost : status_input Sample.boost.
Proof. constructor; [reflexivity | intros _; exact status_input_photo]. Qed.

Lemma status_constant_fields_witness :
  exists o,
    status Sample.photo = Ok o /\
    own "bookmarked" o = Some (VBool false) /\
    own "pinned" o = Some (VBool false).
Proof.
  destruct (status_constant_fields Sample.photo status_input_photo)
    as (o & b & Ho & _ & _ & _ & Hp & _ & _ & _ & Hb).
  exists o. split; [exact Ho|]. split; [|exact Hp].
  apply Hb. reflexivity.
Defined.

Lemma status_object_truthy fields account_ reblog_ :
  truthy (status_object fields account_ reblog_) = true.
Proof. reflexivity. Qed.

Lemma reblog_depth_status_object fields account_ reblog_ :
  reblog_depth (status_object fields account_ reblog_) =
  if truthy reblog_ then S (reblog_depth reblog_) else O.
Proof. reflexivity. Qed.

Lemma reblog_chain_truthy (n : nat) : truthy (reblog_chain n) = true.
Proof. destruct n; reflexivity. Qed.

(** A chain of any length is converted, to a chain of the same length. *)
Lemma status_reblog_chain (n : nat) :
  exists o, status (reblog_chain n) = Ok o /\ reblog_depth o = n /\ truthy o = true.
Proof.
  induction n as [|k (o & Ho & Hd & Ht)].
  - eexists. split; [|split].
    + cbn [reblog_chain]. apply status_eval; reflexivity.
    + reflexivity.
    + reflexivity.
  - eexists. split; [|split].
    + cbn [reblog_chain]. apply status_eval; [reflexivity|].
      change (field "reblog" _) with (reblog_chain k).
      rewrite reblog_chain_truthy. exact Ho.
    + rewrite reblog_depth_status_object, Ht, Hd. reflexivity.
    + reflexivity.
Qed.

Lemma status_reblog_nested (s : value) :
  status_input s ->
  exists o rb,
    status s = Ok o /\
    prop s "reblog" = Ok rb /\
    (rb = VNull -> own "reblog" o = Some VNull) /\
    (truthy rb = true ->
     exists r raccount rmedia rmentions,
       status rb = Ok r /\
       own "reblog" o = Some r /\
       (do a <- prop rb "account" ; account a) = Ok raccount /\
       own "account" r = Some raccount /\
       (do ms <- prop rb "media_attachments" ;
        map_if_array (fun m => Ok (attachment m)) ms) = Ok rmedia /\
       own "media_attachments" r = Some rmedia /\
       (do ms <- prop rb "mentions" ;
        map_if_array (fun m => Ok (mention m)) ms) = Ok rmentions /\
       own "mentions" r = Some rmentions).
Proof.
  intros Hs.
  destruct (status_input_eval s Hs) as (fields & acct & r & -> & _ & Hr & Ho).
  apply status_input_inv in Hs as [_ Hnested].
  exists (status_object fields acct r), (field "reblog" fields).
  split; [exact Ho|]. split; [reflexivity|]. split.
  - intros Hnull. rewrite Hnull in Hr. cbn in Hr. now inversion Hr.
  - intros Ht. rewrite Ht in Hr.
    destruct (status_input_eval _ (Hnested Ht))
      as (rfields & racct & rr & Hrb & Hracct & _ & Hrstatus).
    rewrite Hr in Hrstatus. inversion Hrstatus; subst r.
    exists (status_object rfields racct rr), racct,
      (kept_if_array (field "media_attachments" rfields)),
      (kept_if_array (field "mentions" rfields)).
    rewrite Hrb. cbn [prop bind]. unfold attachment, mention.
    rewrite !map_if_array_id.
    repeat split; try reflexivity; try assumption.
    now rewrite <- Hrb.
Qed.

(** C7.  A Status whose [reblog] is [null] is converted to one with
    [reblog: null]; a Status whose [reblog] is a nested Status is
    converted to one whose [reblog] is what [status] itself returns on the
    nested Status, with the nested account, media attachments and mentions
    converted in turn.  The recursion has no limit of its own: a chain of
    [n] reblogs is converted to a chain of [n] reblogs, for every [n]. *)
Theorem status_reblog :
  (forall s, status_input s ->
     exists o rb,
       status s = Ok o /\
       prop s "reblog" = Ok rb /\
       (rb = VNull -> own "reblog" o = Some VNull) /\
       (truthy rb = true ->
        exists r raccount rmedia rmentions,
          status rb = Ok r /\
          own "reblog" o = Some r /\
          (do a <- prop rb "account" ; account a) = Ok raccount /\
          own "account" r = Some raccount /\
          (do ms <- prop rb "media_attachments" ;
           map_if_array (fun m => Ok (attachment m)) ms) = Ok rmedia /\
          own "media_attachments" r = Some rmedia /\
          (do ms <- prop rb "mentions" ;
           map_if_array (fun m => Ok (mention m)) ms) = Ok rmentions /\
          own "mentions" r = Some rmentions)) /\
  (forall n, exists o, status (reblog_chain n) = Ok o /\ reblog_depth o = n).
Proof.
  split.
  - exact status_reblog_nested.
  - intros n. destruct (status_reblog_chain n) as (o & Ho & Hd & _).
    now exists o.
Qed.

Lemma status_reblog_witness :
  exists o r,
    status Sample.boost = Ok o /\
    status Sample.photo = Ok r /\
    own "reblog" o = Some r.
Proof.
  destruct (proj1 status_reblog Sample.boost status_input_boost)
    as (o & rb & Ho & Hrb & _ & Hnested).
  cbn in Hrb. inversion Hrb; subst rb.
  destruct (Hnested eq_refl) as (r & _ & _ & _ & Hr & Hreblog & _).
  exists o, r. repeat split; assumption.
Defined.

(* ===================================================================== *)
(** ** The enumeration mapper *)
(* ===================================================================== *)

Lemma distinct_members (ns : NotificationTypes) :
  NoDup (members ns) ->
  Follow ns <> Favourite ns /\ Follow ns <> Reblog ns /\
  Follow ns <> Mention ns /\ Follow ns <> FollowRequest ns /\
  Favourite ns <> Reblog ns /\ Favourite ns <> Mention ns /\
  Favourite ns <> FollowRequest ns /\ Reblog ns <> Mention ns /\
  Reblog ns <> FollowRequest ns /\ Mention ns <> FollowRequest ns.
Proof.
  unfold members. rewrite !NoDup_cons, !not_elem_of_cons. intuition.
Qed.

Lemma strict_eq_str_refl (c : string) : (VStr c === c) = true.
Proof. apply String.eqb_refl. Qed.

Lemma strict_eq_str_neq (c d : string) : c <> d -> (VStr c === d) = false.
Proof. intros H. now apply String.eqb_neq. Qed.

Lemma strict_eq_str_other (t : value) (c : string) :
  t <> VStr c -> (t === c) = false.
Proof.
  destruct t; try reflexivity. intros H. apply String.eqb_neq. congruence.
Qed.

Lemma In_members (ns : NotificationTypes) (x : string) :
  In x (members ns) ->
  x = Follow ns \/ x = Favourite ns \/ x = Reblog ns \/ x = Mention ns \/
  x = FollowRequest ns.
Proof. simpl. intuition. Qed.

(** Decide the tests of a [switch] from the facts at hand. *)
Ltac switch_cases :=
  repeat first
    [ rewrite strict_eq_str_refl
    | rewrite strict_eq_str_neq by (assumption || (apply not_eq_sym; assumption))
    | rewrite strict_eq_str_other by assumption ].

Section EnumerationFacts.

Variables NotificationType PixelfedNotificationType : NotificationTypes.
Hypothesis canonical_distinct : NoDup (members NotificationType).
Hypothesis backend_distinct : NoDup (members PixelfedNotificationType).

Abbreviation encode :=
  (encodeNotificationType NotificationType PixelfedNotificationType).
Abbreviation decode :=
  (decodeNotificationType NotificationType PixelfedNotificationType).

Lemma encode_then_decode (m : string) :
  In m (members NotificationType) ->
  exists b, encode (VStr m) = inl b /\ decode (VStr b) = inl m.
Proof using canonical_distinct backend_distinct.
  intros Hm.
  destruct (distinct_members _ canonical_distinct)
    as (? & ? & ? & ? & ? & ? & ? & ? & ? & ?).
  destruct (distinct_members _ backend_distinct)
    as (? & ? & ? & ? & ? & ? & ? & ? & ? & ?).
  unfold encodeNotificationType, decodeNotificationType.
  apply In_members in Hm as [-> | [-> | [-> | [-> | ->]]]];
    eexists; (split; [switch_cases; reflexivity | switch_cases; reflexivity]).
Qed.

Lemma decode_then_encode (b : string) :
  In b (members PixelfedNotificationType) ->
  exists m, decode (VStr b) = inl m /\ encode (VStr m) = inl b.
Proof using canonical_distinct backend_distinct.
  intros Hb.
  destruct (distinct_members _ canonical_distinct)
    as (? & ? & ? & ? & ? & ? & ? & ? & ? & ?).
  destruct (distinct_members _ backend_distinct)
    as (? & ? & ? & ? & ? & ? & ? & ? & ? & ?).
  unfold encodeNotificationType, decodeNotificationType.
  apply In_members in Hb as [-> | [-> | [-> | [-> | ->]]]];
    eexists; (split; [switch_cases; reflexivity | switch_cases; reflexivity]).
Qed.

Lemma encode_unknown (t : value) :
  (forall m, In m (members NotificationType) -> t <> VStr m) ->
  encode t = inr new_UnknownNotificationTypeError.
Proof using Type.
  intros Hout.
  assert (forall m, In m (members NotificationType) -> (t === m) = false) as H.
  { intros m Hm. apply strict_eq_str_other. now apply Hout. }
  unfold encodeNotificationType.
  rewrite !H by (simpl; tauto). reflexivity.
Qed.

Lemma decode_unknown (t : value) :
  (forall b, In b (members PixelfedNotificationType) -> t <> VStr b) ->
  decode t = inr new_UnknownNotificationTypeError.
Proof using Type.
  intros Hout.
  assert (forall b, In b (members PixelfedNotificationType) -> (t === b) = false)
    as H.
  { intros b Hb. apply strict_eq_str_other. now apply Hout. }
  unfold decodeNotificationType.
  rewrite !H by (simpl; tauto). reflexivity.
Qed.

End EnumerationFacts.

(** C4.  With the five constants of each namespace pairwise distinct:
    every canonical member is encoded to a backend value that decodes back
    to it, every backend member is decoded to a canonical value that
    encodes back to it, and on any value that is not a member both
    functions return the [UnknownNotificationTypeError] marker (as a
    value; nothing is thrown). *)
Theorem notification_type_round_trip
  (NotificationType PixelfedNotificationType : NotificationTypes) :
  NoDup (members NotificationType) ->
  NoDup (members PixelfedNotificationType) ->
  (forall m, In m (members NotificationType) ->
     exists b,
       encodeNotificationType NotificationType PixelfedNotificationType (VStr m)
         = inl b /\
       decodeNotificationType NotificationType PixelfedNotificationType (VStr b)
         = inl m) /\
  (forall b, In b (members PixelfedNotificationType) ->
     exists m,
       decodeNotificationType NotificationType PixelfedNotificationType (VStr b)
         = inl m /\
       encodeNotificationType NotificationType PixelfedNotificationType (VStr m)
         = inl b) /\
  (forall t, (forall m, In m (members NotificationType) -> t <> VStr m) ->
     encodeNotificationType NotificationType PixelfedNotificationType t
       = inr new_UnknownNotificationTypeError) /\
  (forall t, (forall b, In b (members PixelfedNotificationType) -> t <> VStr b) ->
     decodeNotificationType NotificationType PixelfedNotificationType t
       = inr new_UnknownNotificationTypeError).
Proof.
  intros Hc Hb. repeat split.
  - now apply encode_then_decode.
  - now apply decode_then_encode.
  - apply encode_unknown.
  - apply decode_unknown.
Qed.

Lemma sample_members_distinct :
  NoDup (members Sample.MegalodonNotificationType) /\
  NoDup (members Sample.PixelfedNotificationType).
Proof.
  split; compute_done.
Qed.

Lemma notification_type_round_trip_witness :
  decodeNotificationType Sample.MegalodonNotificationType
    Sample.PixelfedNotificationType (VStr "follow_request")
    = inl "follow_request" /\
  encodeNotificationType Sample.MegalodonNotificationType
    Sample.PixelfedNotificationType (VStr "poll")
    = inr new_UnknownNotificationTypeError.
Proof.
  destruct (notification_type_round_trip Sample.MegalodonNotificationType
              Sample.PixelfedNotificationType
              (proj1 sample_members_distinct) (proj2 sample_members_distinct))
    as (_ & Hdec & Henc & _).
  split.
  - destruct (Hdec "follow_request") as (m & Hm & _).
    + cbn. tauto.
    + rewrite Hm. cbn in Hm. congruence.
  - apply Henc. cbn. intros m [<- | [<- | [<- | [<- | [<- | []]]]]]; discriminate.
Defined.

(* ===================================================================== *)
(** ** Notifications *)
(* ===================================================================== *)

Lemma assoc_None_field (k : string) (fields : list (string * value)) :
  assoc k fields = None -> field k fields = VUndefined.
Proof. unfold field. now intros ->. Qed.

Lemma status_input_truthy (s : value) : status_input s -> truthy s = true.
Proof. now destruct 1. Qed.

(** C8.  A backend Notification whose type decodes to [t] and whose
    account can be read: without a [status] key the result is the
    four-key object [account], [created_at], [id], [type], with no
    [status] key; with a Status under [status] the result is the same
    object with, between [id] and [type], the key [status] holding what
    [status] returns on it.  The converted account, [created_at], [id] and
    the decoded type are the same in both. *)
Theorem notification_status_branches
  (NotificationType PixelfedNotificationType : NotificationTypes)
  (fields : list (string * value)) (t : string) :
  decodeNotificationType NotificationType PixelfedNotificationType
    (field "type" fields) = inl t ->
  nullish (field "account" fields) = false ->
  exists account_,
    account (field "account" fields) = Ok account_ /\
    (assoc "status" fields = None ->
     notification NotificationType PixelfedNotificationType (VObj fields) =
     Ok (inl (VObj [("account", account_);
                    ("created_at", field "created_at" fields);
                    ("id", field "id" fields);
                    ("type", VStr t)]))) /\
    (status_input (field "status" fields) ->
     exists status_,
       status (field "status" fields) = Ok status_ /\
       notification NotificationType PixelfedNotificationType (VObj fields) =
       Ok (inl (VObj [("account", account_);
                      ("created_at", field "created_at" fields);
                      ("id", field "id" fields);
                      ("status", status_);
                      ("type", VStr t)]))).
Proof.
  intros Hdec Hacc.
  destruct (account_returns _ Hacc) as [acct Hacct].
  exists acct. split; [exact Hacct|]. split.
  - intros Habsent. unfold notification. cbn [prop bind].
    rewrite Hdec, (assoc_None_field _ _ Habsent). cbn [truthy].
    rewrite Hacct. reflexivity.
  - intros Hst. destruct (status_returns _ Hst) as [st Hstatus].
    exists st. split; [exact Hstatus|].
    unfold notification. cbn [prop bind].
    rewrite Hdec, (status_input_truthy _ Hst), Hacct, Hstatus. reflexivity.
Qed.

Lemma notification_status_branches_witness :
  (exists o,
     notification Sample.MegalodonNotificationType
       Sample.PixelfedNotificationType (VObj Sample.followed_fields)
       = Ok (inl o) /\
     own "status" o = None) /\
  (exists o st,
     notification Sample.MegalodonNotificationType
       Sample.PixelfedNotificationType (VObj Sample.favourited_fields)
       = Ok (inl o) /\
     status Sample.photo = Ok st /\
     own "status" o = Some st).
Proof.
  split.
  - destruct (notification_status_branches Sample.MegalodonNotificationType
                Sample.PixelfedNotificationType Sample.followed_fields
                "follow" eq_refl eq_refl) as (acct & _ & Habsent & _).
    eexists. split; [apply Habsent; reflexivity | reflexivity].
  - destruct (notification_status_branches Sample.MegalodonNotificationType
                Sample.PixelfedNotificationType Sample.favourited_fields
                "favourite" eq_refl eq_refl) as (acct & _ & _ & Hpresent).
    destruct (Hpresent status_input_photo) as (st & Hst & Hn).
    eexists. exists st. split; [exact Hn|]. split; [exact Hst | reflexivity].
Defined.

(** C9.  When the [type] of a backend Notification is none of the five
    backend constants, [notification] returns the very marker
    [decodeNotificationType] returns on that type, and no Notification. *)
Theorem notification_unknown_type
  (NotificationType PixelfedNotificationType : NotificationTypes)
  (n t : value) :
  prop n "type" = Ok t ->
  (forall b, In b (members PixelfedNotificationType) -> t <> VStr b) ->
  exists e,
    decodeNotificationType NotificationType PixelfedNotificationType t = inr e /\
    notification NotificationType PixelfedNotificationType n = Ok (inr e).
Proof.
  intros Ht Hout.
  exists new_UnknownNotificationTypeError.
  pose proof (decode_unknown NotificationType PixelfedNotificationType t Hout)
    as Hdec.
  split; [exact Hdec|].
  unfold notification. rewrite Ht. cbn [bind]. now rewrite Hdec.
Qed.

Lemma notification_unknown_type_witness :
  notification Sample.MegalodonNotificationType Sample.PixelfedNotificationType
    Sample.poll_ended = Ok (inr new_UnknownNotificationTypeError).
Proof.
  destruct (notification_unknown_type Sample.MegalodonNotificationType
              Sample.PixelfedNotificationType Sample.poll_ended (VStr "poll")
              eq_refl) as ([] & _ & Hn).
  - cbn. intros b [<- | [<- | [<- | [<- | [<- | []]]]]]; discriminate.
  - exact Hn.
Defined.

(* ===================================================================== *)
(** ** Arrays *)
(* ===================================================================== *)

Lemma mapM_returns {A B : Type} (f : A -> result B) (P : A -> Prop)
  (xs : list A) :
  (forall x, P x -> exists y, f x = Ok y) ->
  Forall P xs -> exists ys, mapM f xs = Ok ys.
Proof.
  intros Hf. induction 1 as [|x rest Hx _ [ys IH]]; simpl.
  - now exists [].
  - destruct (Hf x Hx) as [y Hy]. rewrite Hy, IH. simpl. now eexists.
Qed.

Lemma map_if_array_returns (f : value -> result value) (P : value -> Prop)
  (v : value) :
  (forall x, P x -> exists y, f x = Ok y) ->
  (forall items, v = VArr items -> Forall P items) ->
  exists v', map_if_array f v = Ok v' /\ (isArray v = false -> v' = VArr []).
Proof.
  intros Hf Hv. unfold map_if_array.
  destruct v as [| | b | n | str | items | fields];
    try (exists (VArr []); split; [reflexivity | reflexivity]).
  destruct (mapM_returns f P items Hf (Hv items eq_refl)) as [ys Hys].
  exists (VArr ys). cbn. rewrite Hys. split; [reflexivity | discriminate].
Qed.

Lemma map_if_array_status (v : value) :
  statuses_input v ->
  exists v', map_if_array status v = Ok v' /\ (isArray v = false -> v' = VArr []).
Proof. apply map_if_array_returns. exact status_returns. Qed.

Lemma map_if_array_account (v : value) :
  accounts_input v ->
  exists v', map_if_array account v = Ok v' /\ (isArray v = false -> v' = VArr []).
Proof.
  apply (map_if_array_returns account (fun a => nullish a = false)).
  exact account_returns.
Qed.

Lemma status_arrays (s : value) :
  status_input s ->
  exists o emojis media_attachments mentions tags,
    status s = Ok o /\
    prop s "emojis" = Ok emojis /\
    prop s "media_attachments" = Ok media_attachments /\
    prop s "mentions" = Ok mentions /\
    prop s "tags" = Ok tags /\
    (isArray emojis = false -> own "emojis" o = Some (VArr [])) /\
    (isArray media_attachments = false ->
     own "media_attachments" o = Some (VArr [])) /\
    (isArray mentions = false -> own "mentions" o = Some (VArr [])) /\
    own "tags" o = Some tags.
Proof.
  intros Hs.
  destruct (status_input_eval s Hs) as (fields & acct & r & -> & _ & _ & Ho).
  exists (status_object fields acct r), (field "emojis" fields),
    (field "media_attachments" fields), (field "mentions" fields),
    (field "tags" fields).
  split; [exact Ho|].
  repeat split; intros Hna; cbn; unfold kept_if_array; now rewrite Hna.
Qed.

Lemma context_arrays (c ancestors descendants : value) :
  prop c "ancestors" = Ok ancestors ->
  prop c "descendants" = Ok descendants ->
  statuses_input ancestors -> statuses_input descendants ->
  exists o,
    context c = Ok o /\
    (isArray ancestors = false -> own "ancestors" o = Some (VArr [])) /\
    (isArray descendants = false -> own "descendants" o = Some (VArr [])).
Proof.
  intros Ha Hd Hai Hdi. unfold context. rewrite Ha, Hd. cbn [bind].
  destruct (map_if_array_status _ Hai) as (a' & -> & Ha').
  destruct (map_if_array_status _ Hdi) as (d' & -> & Hd').
  eexists. split; [reflexivity|]. split; intros Hna; cbn.
  - now rewrite Ha'.
  - now rewrite Hd'.
Qed.

Lemma results_arrays (r accounts statuses hashtags : value) :
  prop r "accounts" = Ok accounts ->
  prop r "statuses" = Ok statuses ->
  prop r "hashtags" = Ok hashtags ->
  accounts_input accounts -> statuses_input statuses ->
  exists o,
    results r = Ok o /\
    (isArray accounts = false -> own "accounts" o = Some (VArr [])) /\
    (isArray statuses = false -> own "statuses" o = Some (VArr [])) /\
    (isArray hashtags = false -> own "hashtags" o = Some (VArr [])).
Proof.
  intros Ha Hs Hh Hai Hsi. unfold results. rewrite Ha, Hs, Hh. cbn [bind].
  destruct (map_if_array_account _ Hai) as (a' & -> & Ha').
  destruct (map_if_array_status _ Hsi) as (s' & -> & Hs').
  unfold tag. rewrite map_if_array_id.
  eexists. split; [reflexivity|]. repeat split; intros Hna; cbn.
  - now rewrite Ha'.
  - now rewrite Hs'.
  - unfold kept_if_array. now rewrite Hna.
Qed.

Lemma conversation_arrays (c accounts last_status : value) :
  prop c "accounts" = Ok accounts ->
  prop c "last_status" = Ok last_status ->
  accounts_input accounts ->
  (truthy last_status = true -> status_input last_status) ->
  exists o,
    conversation c = Ok o /\
    (isArray accounts = false -> own "accounts" o = Some (VArr [])).
Proof.
  intros Ha Hl Hai Hli. unfold conversation.
  assert (exists i u, prop c "id" = Ok i /\ prop c "unread" = Ok u)
    as (i & u & -> & ->).
  { destruct c; try discriminate Ha; do 2 eexists; split; reflexivity. }
  rewrite Ha, Hl. cbn [bind].
  destruct (map_if_array_account _ Hai) as (a' & -> & Ha').
  assert (exists l', (if truthy last_status then status last_status
                      else Ok VNull) = Ok l') as [l' ->].
  { destruct (truthy last_status); [|now exists VNull].
    apply status_returns. now apply Hli. }
  eexists. split; [reflexivity|]. intros Hna. cbn. now rewrite Ha'.
Qed.

Lemma account_arrays (a emojis fields_ : value) :
  prop a "emojis" = Ok emojis ->
  prop a "fields" = Ok fields_ ->
  exists o,
    account a = Ok o /\
    own "emojis" o = Some emojis /\
    own "fields" o = Some fields_.
Proof.
  intros He Hf.
  destruct a as [| | b | n | str | items | fields]; try discriminate He;
    cbn in He, Hf; inversion He; inversion Hf;
    (eexists; split; [reflexivity|]; split; reflexivity).
Qed.

(** C6, as the code has it.  Each array the converter maps over is
    tested with [Array.isArray] first: for [Context.ancestors] and
    [descendants], [Results.accounts], [statuses] and [hashtags],
    [Conversation.accounts], and [Status.emojis], [media_attachments] and
    [mentions], a backend value that is not an array (or is absent) gives
    the empty array and the conversion returns.  [Status.tags] is copied
    as it is. *)
Theorem mapped_arrays_default_to_empty :
  (forall s, status_input s ->
     exists o emojis media_attachments mentions tags,
       status s = Ok o /\
       prop s "emojis" = Ok emojis /\
       prop s "media_attachments" = Ok media_attachments /\
       prop s "mentions" = Ok mentions /\
       prop s "tags" = Ok tags /\
       (isArray emojis = false -> own "emojis" o = Some (VArr [])) /\
       (isArray media_attachments = false ->
        own "media_attachments" o = Some (VArr [])) /\
       (isArray mentions = false -> own "mentions" o = Some (VArr [])) /\
       own "tags" o = Some tags) /\
  (forall c ancestors descendants,
     prop c "ancestors" = Ok ancestors ->
     prop c "descendants" = Ok descendants ->
     statuses_input ancestors -> statuses_input descendants ->
     exists o,
       context c = Ok o /\
       (isArray ancestors = false -> own "ancestors" o = Some (VArr [])) /\
       (isArray descendants = false -> own "descendants" o = Some (VArr []))) /\
  (forall r accounts statuses hashtags,
     prop r "accounts" = Ok accounts ->
     prop r "statuses" = Ok statuses ->
     prop r "hashtags" = Ok hashtags ->
     accounts_input accounts -> statuses_input statuses ->
     exists o,
       results r = Ok o /\
       (isArray accounts = false -> own "accounts" o = Some (VArr [])) /\
       (isArray statuses = false -> own "statuses" o = Some (VArr [])) /\
       (isArray hashtags = false -> own "hashtags" o = Some (VArr []))) /\
  (forall c accounts last_status,
     prop c "accounts" = Ok accounts ->
     prop c "last_status" = Ok last_status ->
     accounts_input accounts ->
     (truthy last_status = true -> status_input last_status) ->
     exists o,
       conversation c = Ok o /\
       (isArray accounts = false -> own "accounts" o = Some (VArr []))) /\
  (forall a emojis fields_,
     prop a "emojis" = Ok emojis ->
     prop a "fields" = Ok fields_ ->
     exists o,
       account a = Ok o /\
       own "emojis" o = Some emojis /\
       own "fields" o = Some fields_).
Proof.
  split; [exact status_arrays|].
  split; [exact context_arrays|].
  split; [exact results_arrays|].
  split; [exact conversation_arrays | exact account_arrays].
Qed.

Lemma statuses_input_not_array (v : value) :
  isArray v = false -> statuses_input v.
Proof. intros Hv items ->. discriminate Hv. Qed.


Lemma mapped_arrays_default_to_empty_witness :
  (exists o,
     status Sample.boost = Ok o /\
     own "emojis" o = Some (VArr []) /\
     own "media_attachments" o = Some (VArr []) /\
     own "mentions" o = Some (VArr [])) /\
  (exists o,
     context Sample.thread = Ok o /\ own "ancestors" o = Some (VArr [])).
Proof.
  destruct mapped_arrays_default_to_empty as (Hstatus & Hcontext & _).
  split.
  - destruct (Hstatus Sample.boost status_input_boost)
      as (o & e & m & n & t & Ho & He & Hm & Hn & _ & Hes & Hms & Hns & _).
    cbn in He, Hm, Hn.
    inversion He; subst e. inversion Hm; subst m. inversion Hn; subst n.
    exists o. split; [exact Ho|]. split; [|split].
    + now apply Hes.
    + now apply Hms.
    + now apply Hns.
  - destruct (Hcontext Sample.thread VNull (VArr [Sample.photo])
                eq_refl eq_refl) as (o & Ho & Ha & _).
    + now apply statuses_input_not_array.
    + intros items Hitems. inversion Hitems; subst items.
      constructor; [exact status_input_photo | constructor].
    + exists o. split; [exact Ho | now apply Ha].
Defined.

(** C6 as stated fails on [Status.tags]: a Status whose [tags] is [null]
    is converted, and its [tags] is [null], not the empty array. *)
Lemma status_tags_not_defaulted :
  exists o tags,
    status Sample.untagged = Ok o /\
    prop Sample.untagged "tags" = Ok tags /\
    isArray tags = false /\
    own "tags" o = Some VNull /\
    own "tags" o <> Some (VArr []).
Proof.
  eexists. exists VNull. split; [|split; [|split; [|split]]].
  - apply status_eval; reflexivity.
  - reflexivity.
  - reflexivity.
  - reflexivity.
  - discriminate.
Qed.

(* ===================================================================== *)
(** ** The client: authorization header *)
(* ===================================================================== *)

Import Axios Client.

Lemma call_config (v : Verb) (c : Client) (path : string) (params : value)
  (hdrs : gmap string string) (w : World) :
  exists options,
    config (sent (call v c path params hdrs w)) = authorize c options /\
    headers options = Some hdrs.
Proof. destruct v; eexists; (split; [reflexivity | reflexivity]). Qed.

Lemma authorize_token (c : Client) (t : string) (options : AxiosRequestConfig)
  (hdrs : gmap string string) :
  token_set c = Some t -> headers options = Some hdrs ->
  headers (authorize c options)
  = Some ({[ "Authorization" := "Bearer " +:+ t ]} ∪ hdrs).
Proof.
  intros Ht Hh. unfold authorize. rewrite Ht. cbn. now rewrite Hh.
Qed.

Lemma authorize_no_token (c : Client) (options : AxiosRequestConfig) :
  token_set c = None -> authorize c options = options.
Proof. intros Ht. unfold authorize. now rewrite Ht. Qed.

Lemma token_set_Some (c : Client) (t : string) :
  accessToken c = Some t -> t <> "" -> token_set c = Some t.
Proof.
  intros Ha Hne. unfold token_set. rewrite Ha.
  now rewrite (proj2 (String.eqb_neq t "") Hne).
Qed.

Lemma token_set_None (c : Client) :
  accessToken c = None \/ accessToken c = Some "" -> token_set c = None.
Proof. unfold token_set. now intros [-> | ->]. Qed.

(** C3, as the code has it.  For each of the eight verb methods: when the
    client has a token that is not the empty string, the request's headers
    are the caller's merged with [Authorization: Bearer <token>]: that
    header is there, every key the caller gave is still there, and every
    caller's value under another key is unchanged.  When the token is
    [null] or the empty string, the request's headers are the caller's. *)
Theorem authorization_header (v : Verb) (c : Client) (path : string)
  (params : value) (hdrs : gmap string string) (w : World) :
  (forall t, accessToken c = Some t -> t <> "" ->
     exists sent_headers,
       headers (config (sent (call v c path params hdrs w))) = Some sent_headers /\
       sent_headers !! "Authorization" = Some ("Bearer " +:+ t) /\
       (forall k, is_Some (hdrs !! k) -> is_Some (sent_headers !! k)) /\
       (forall k, k <> "Authorization" -> sent_headers !! k = hdrs !! k)) /\
  (accessToken c = None \/ accessToken c = Some "" ->
   headers (config (sent (call v c path params hdrs w))) = Some hdrs).
Proof.
  destruct (call_config v c path params hdrs w) as (options & -> & Hh).
  split.
  - intros t Ha Hne.
    exists ({[ "Authorization" := "Bearer " +:+ t ]} ∪ hdrs).
    split; [apply authorize_token; [now apply token_set_Some | exact Hh]|].
    split; [|split].
    + apply lookup_union_Some_l, lookup_singleton_eq.
    + intros k [x Hx].
      destruct (decide (k = "Authorization")) as [-> | Hk].
      * eexists. apply lookup_union_Some_l, lookup_singleton_eq.
      * exists x. rewrite lookup_union_r; [exact Hx|].
        apply lookup_singleton_ne. congruence.
    + intros k Hk. apply lookup_union_r, lookup_singleton_ne. congruence.
  - intros Hnone. rewrite authorize_no_token; [exact Hh|].
    now apply token_set_None.
Qed.

Lemma authorization_header_witness :
  exists sent_headers,
    headers (config (sent (call Del (fst Sample.first_client) "/api/v1/statuses/1"
                             (VObj []) Sample.caller_headers
                             (snd Sample.first_client))))
    = Some sent_headers /\
    sent_headers !! "Authorization" = Some "Bearer token-b" /\
    sent_headers !! "Accept" = Some "application/json".
Proof.
  destruct (proj1 (authorization_header Del (fst Sample.first_client)
                     "/api/v1/statuses/1" (VObj []) Sample.caller_headers
                     (snd Sample.first_client)) "token-b" eq_refl)
    as (sent_headers & Hs & Hauth & _ & Hother).
  - discriminate.
  - exists sent_headers. split; [exact Hs|]. split; [exact Hauth|].
    rewrite Hother by discriminate. apply lookup_singleton_eq.
Defined.

(** C3 as stated fails for the empty token: it is not [null], and no
    [Authorization] header is sent. *)
Lemma empty_token_no_authorization :
  accessToken (fst Sample.blank_client) <> None /\
  exists sent_headers,
    headers (config (sent (get (fst Sample.blank_client) "/api/v1/instance"
                             (VObj []) Sample.caller_headers false
                             (snd Sample.blank_client))))
    = Some sent_headers /\
    sent_headers !! "Authorization" = None.
Proof.
  split; [discriminate|].
  exists Sample.caller_headers. split; [reflexivity|].
  apply lookup_singleton_ne. discriminate.
Qed.

(* ===================================================================== *)
(** ** The client: cancellation *)
(* ===================================================================== *)

Lemma settle_aborted (server : Request -> Promise AxiosResponse) (w : World)
  (r : Request) (k : AbortController) :
  signal r = Some k -> k ∈ aborted w ->
  settle server w r = Rejected (CanceledError "canceled").
Proof.
  intros Hs Hk. unfold settle. rewrite Hs.
  now rewrite bool_decide_eq_true_2.
Qed.

Lemma settle_live (server : Request -> Promise AxiosResponse) (w : World)
  (r : Request) (k : AbortController) :
  signal r = Some k -> k ∉ aborted w -> settle server w r = server r.
Proof.
  intros Hs Hk. unfold settle. rewrite Hs.
  now rewrite bool_decide_eq_false_2.
Qed.

Lemma cancel_aborts (c : Client) (w : World) :
  abortController c ∈ aborted (cancel c w).
Proof. cbn. apply elem_of_union_l, elem_of_singleton. reflexivity. Qed.

(** The six verbs with a [.catch] turn the abort failure into
    [RequestCanceledError]. *)
Lemma caught_abort (server : Request -> Promise AxiosResponse) (v : Verb)
  (c : Client) (path : string) (params : value) (hdrs : gmap string string)
  (w w' : World) (k : AbortController) :
  v <> Post -> v <> PostForm ->
  signal (sent (call v c path params hdrs w)) = Some k -> k ∈ aborted w' ->
  outcome server w' (call v c path params hdrs w)
  = Rejected (RequestCanceledError "canceled").
Proof.
  intros Hpost Hform Hs Hk. unfold outcome.
  rewrite (settle_aborted server w' _ k Hs Hk).
  destruct v; try reflexivity; congruence.
Qed.

(** [post] and [postForm] have none: the abort failure goes through. *)
Lemma uncaught_abort (server : Request -> Promise AxiosResponse) (v : Verb)
  (c : Client) (path : string) (params : value) (hdrs : gmap string string)
  (w w' : World) (k : AbortController) :
  v = Post \/ v = PostForm ->
  signal (sent (call v c path params hdrs w)) = Some k -> k ∈ aborted w' ->
  outcome server w' (call v c path params hdrs w)
  = Rejected (CanceledError "canceled").
Proof.
  intros Hv Hs Hk. unfold outcome.
  rewrite (settle_aborted server w' _ k Hs Hk).
  destruct Hv as [-> | ->]; reflexivity.
Qed.

(** C1 on the code.  A request that carries the signal of its own
    client's controller, once that client's [cancel] has run: issued with
    [get], [put], [putForm], [patch], [patchForm] or [del] it is rejected
    with [RequestCanceledError]; issued with [post] or [postForm] it is
    rejected with the transport's own abort failure. *)
Theorem abort_failure_by_verb (server : Request -> Promise AxiosResponse)
  (v : Verb) (c : Client) (path : string) (params : value)
  (hdrs : gmap string string) (w w' : World) :
  signal (sent (call v c path params hdrs w)) = Some (abortController c) ->
  (v <> Post -> v <> PostForm ->
   outcome server (cancel c w') (call v c path params hdrs w)
   = Rejected (RequestCanceledError "canceled")) /\
  (v = Post \/ v = PostForm ->
   outcome server (cancel c w') (call v c path params hdrs w)
   = Rejected (CanceledError "canceled")).
Proof.
  intros Hs. split.
  - intros Hpost Hform.
    now apply (caught_abort server v c path params hdrs w _ _ Hpost Hform Hs),
      cancel_aborts.
  - intros Hv.
    now apply (uncaught_abort server v c path params hdrs w _ _ Hv Hs),
      cancel_aborts.
Qed.

Lemma abort_failure_by_verb_witness :
  outcome Sample.ok_server (cancel (fst Sample.blank_client) (snd Sample.blank_client))
    (post (fst Sample.blank_client) "/api/v1/statuses" (VObj [])
       Sample.caller_headers (snd Sample.blank_client))
  = Rejected (CanceledError "canceled") /\
  outcome Sample.ok_server
    (cancel (fst Sample.blank_client) (snd Sample.blank_client))
    (put (fst Sample.blank_client) "/api/v1/statuses/1" (VObj [])
       Sample.caller_headers (snd Sample.blank_client))
  = Rejected (RequestCanceledError "canceled").
Proof.
  split.
  - apply (proj2 (abort_failure_by_verb Sample.ok_server Post (fst Sample.blank_client)
                    "/api/v1/statuses" (VObj []) Sample.caller_headers
                    (snd Sample.blank_client) (snd Sample.blank_client)
                    eq_refl)).
    now left.
  - apply (proj1 (abort_failure_by_verb Sample.ok_server Put (fst Sample.blank_client)
                    "/api/v1/statuses/1" (VObj []) Sample.caller_headers
                    (snd Sample.blank_client) (snd Sample.blank_client)
                    eq_refl)); discriminate.
Defined.

(** C2 on the code.  Make a client [b], then a client [a], and let [b]
    issue a [get].  The two clients own different controllers, but the
    request carries the signal of [a]'s, the one the library's defaults
    hold since [a] was constructed.  Left alone, the request settles as
    the server answers; [a.cancel()] rejects it with
    [RequestCanceledError]; [b.cancel()] changes nothing for it. *)
Theorem cancel_reaches_other_instance
  (server : Request -> Promise AxiosResponse)
  (urlB urlA : string) (tokenB tokenA : option string)
  (path : string) (params : value) (hdrs : gmap string string)
  (pathIsFullyQualified : bool) :
  let b := constructor urlB tokenB initial in
  let a := constructor urlA tokenA (snd b) in
  let p := get (fst b) path params hdrs pathIsFullyQualified (snd a) in
  abortController (fst a) <> abortController (fst b) /\
  signal (sent p) = Some (abortController (fst a)) /\
  outcome server (snd a) p = then_ (catch (server (sent p)) rethrow) envelope /\
  outcome server (cancel (fst a) (snd a)) p
  = Rejected (RequestCanceledError "canceled") /\
  outcome server (cancel (fst b) (snd a)) p = outcome server (snd a) p.
Proof.
  intros b a p.
  assert (signal (sent p) = Some 1) as Hs by reflexivity.
  split; [discriminate|]. split; [exact Hs|]. split; [|split].
  - unfold outcome. rewrite (settle_live server _ _ 1 Hs); [reflexivity|].
    cbn. apply not_elem_of_empty.
  - unfold outcome.
    rewrite (settle_aborted server _ _ 1 Hs); [reflexivity|].
    apply (cancel_aborts (fst a)).
  - unfold outcome.
    rewrite !(settle_live server _ _ 1 Hs); [reflexivity| |].
    + cbn. apply not_elem_of_empty.
    + cbn. rewrite elem_of_union, elem_of_singleton.
      intros [H | H]; [discriminate H | now apply not_elem_of_empty in H].
Qed.

(* ===================================================================== *)
(** ** Further properties of the converter *)
(* ===================================================================== *)

(** X1.  A converted account is a fixed point of [account]: converting it
    again returns it unchanged. *)
Theorem account_idempotent (a o : value) :
  account a = Ok o -> account o = Ok o.
Proof.
  intros Ha.
  destruct a as [| | b | n | str | items | fields]; try discriminate Ha;
    cbn in Ha; inversion Ha; reflexivity.
Qed.

Lemma account_idempotent_witness :
  exists o, account Sample.alice = Ok o /\ account o = Ok o.
Proof.
  eexists. split; [reflexivity|].
  apply (account_idempotent Sample.alice). reflexivity.
Defined.

Lemma kept_if_array_idempotent (v : value) :
  kept_if_array (kept_if_array v) = kept_if_array v.
Proof. now destruct v. Qed.

Lemma or_null_idempotent (v : value) :
  (if truthy (if truthy v then v else VNull) then (if truthy v then v else VNull)
   else VNull) = (if truthy v then v else VNull).
Proof. now destruct (truthy v) eqn:Hv; [rewrite Hv|]. Qed.

Lemma or_false_idempotent (v : value) :
  (if truthy (if truthy v then v else VBool false)
   then (if truthy v then v else VBool false) else VBool false)
  = (if truthy v then v else VBool false).
Proof. now destruct (truthy v) eqn:Hv; [rewrite Hv|]. Qed.

(** Converting a status object again, given that its account and reblog
    are already fixed points. *)
Lemma status_object_fixed (fields : list (string * value)) (account_ reblog_ : value) :
  account account_ = Ok account_ ->
  (if truthy reblog_ then status reblog_ else Ok VNull) = Ok reblog_ ->
  status (status_object fields account_ reblog_)
  = Ok (status_object fields account_ reblog_).
Proof.
  intros Ha Hr. unfold status_object at 1.
  erewrite status_eval; [| exact Ha | exact Hr].
  unfold status_object. cbn [field assoc String.eqb Ascii.eqb Bool.eqb].
  now rewrite !kept_if_array_idempotent, !or_null_idempotent,
    or_false_idempotent.
Qed.

Lemma status_fixed_on_input (s : value) :
  status_input s -> forall o, status s = Ok o -> status o = Ok o.
Proof.
  induction 1 as [fields Ha Hnested IH]. intros o Ho.
  destruct (account_returns _ Ha) as [acct Hacct].
  destruct (truthy (field "reblog" fields)) eqn:Ht.
  - destruct (status_input_eval _ (Hnested eq_refl))
      as (rf & ra & rr & _ & _ & _ & Hr).
    rewrite (status_eval fields acct (status_object rf ra rr) Hacct) in Ho
      by now rewrite Ht.
    inversion Ho; subst o.
    apply status_object_fixed; [now apply (account_idempotent _ _ Hacct)|].
    rewrite status_object_truthy. now apply (IH eq_refl).
  - rewrite (status_eval fields acct VNull Hacct) in Ho by now rewrite Ht.
    inversion Ho; subst o.
    apply status_object_fixed; [now apply (account_idempotent _ _ Hacct)|].
    reflexivity.
Qed.

(** X2.  A converted status is a fixed point of [status]: converting the
    canonical status again returns it unchanged, nested reblogs included. *)
Theorem status_idempotent (s o : value) :
  status s = Ok o -> status o = Ok o.
Proof.
  intros Ho. apply (status_fixed_on_input s); [|exact Ho].
  apply status_Ok_input. now exists o.
Qed.

Lemma status_idempotent_witness :
  exists o, status Sample.boost = Ok o /\ status o = Ok o.
Proof.
  destruct (status_returns _ status_input_boost) as [o Ho].
  exists o. split; [exact Ho|].
  exact (status_idempotent Sample.boost o Ho).
Defined.

Lemma status_throws_nullish (s : value) :
  nullish s = true -> status s = Throw (TypeError "id").
Proof. destruct s; try discriminate; reflexivity. Qed.

Lemma account_throws_nullish (a : value) :
  nullish a = true -> account a = Throw (TypeError "id").
Proof. destruct a; try discriminate; reflexivity. Qed.

Lemma status_throws_account (s a : value) :
  prop s "account" = Ok a -> nullish a = true ->
  status s = Throw (TypeError "id").
Proof.
  intros Ha Hn. rewrite status_unfold. unfold status_literal.
  destruct s as [| | b | n | str | items | fields]; try discriminate Ha;
    cbn [prop bind] in *; inversion Ha; subst a;
    now rewrite (account_throws_nullish _ Hn).
Qed.

(** X3.  [status] returns exactly on the objects whose [account] is
    neither [null] nor [undefined] and whose [reblog], when truthy, is
    such an object in turn.  On [null] or [undefined], and on a value
    whose [account] is [null] or [undefined], it throws the [TypeError] of
    reading [id]. *)
Theorem status_returns_iff (s : value) :
  ((exists o, status s = Ok o) <-> status_input s) /\
  (nullish s = true -> status s = Throw (TypeError "id")) /\
  (forall a, prop s "account" = Ok a -> nullish a = true ->
     status s = Throw (TypeError "id")).
Proof.
  split; [split; [apply status_Ok_input | apply status_returns]|].
  split; [apply status_throws_nullish | apply status_throws_account].
Qed.

Lemma status_returns_iff_witness :
  status (VObj [("id", VStr "13"); ("account", VNull)]) = Throw (TypeError "id") /\
  status VNull = Throw (TypeError "id").
Proof.
  split.
  - apply (proj2 (proj2 (status_returns_iff
                           (VObj [("id", VStr "13"); ("account", VNull)])))
             VNull); reflexivity.
  - apply (proj1 (proj2 (status_returns_iff VNull))). reflexivity.
Defined.

Lemma reblog_depth_obj (fields : list (string * value)) :
  reblog_depth (VObj fields) =
  if truthy (field "reblog" fields) then S (reblog_depth (field "reblog" fields))
  else O.
Proof. cbn [reblog_depth]. now apply on_field_field. Qed.

Lemma status_depth_on_input (s : value) :
  status_input s -> forall o, status s = Ok o -> reblog_depth o = reblog_depth s.
Proof.
  induction 1 as [fields Ha Hnested IH]. intros o Ho.
  destruct (account_returns _ Ha) as [acct Hacct].
  rewrite reblog_depth_obj.
  destruct (truthy (field "reblog" fields)) eqn:Ht.
  - destruct (status_input_eval _ (Hnested eq_refl))
      as (rf & ra & rr & _ & _ & _ & Hr).
    rewrite (status_eval fields acct (status_object rf ra rr) Hacct) in Ho
      by now rewrite Ht.
    inversion Ho; subst o.
    rewrite reblog_depth_status_object, status_object_truthy.
    f_equal. now apply (IH eq_refl).
  - rewrite (status_eval fields acct VNull Hacct) in Ho by now rewrite Ht.
    now inversion Ho.
Qed.

(** X4.  [status] keeps the depth of the [reblog] chain: the converted
    status nests exactly as many reblogs as the backend status. *)
Theorem status_keeps_reblog_depth (s o : value) :
  status s = Ok o -> reblog_depth o = reblog_depth s.
Proof.
  intros Ho. apply status_depth_on_input; [|exact Ho].
  apply status_Ok_input. now exists o.
Qed.

Lemma status_keeps_reblog_depth_witness :
  exists o, status Sample.boost = Ok o /\ reblog_depth o = 1.
Proof.
  destruct (status_returns _ status_input_boost) as [o Ho].
  exists o. split; [exact Ho|].
  exact (status_keeps_reblog_depth Sample.boost o Ho).
Defined.

(* ===================================================================== *)
(** ** Arrays of entities *)
(* ===================================================================== *)

Lemma mapM_Forall2 {A B : Type} (f : A -> result B) (xs : list A) (ys : list B) :
  mapM f xs = Ok ys <-> Forall2 (fun x y => f x = Ok y) xs ys.
Proof.
  split.
  - revert ys. induction xs as [|x rest IH]; intros ys H; cbn in H.
    + inversion H. constructor.
    + apply bind_Ok_inv in H as (y & Hy & H).
      apply bind_Ok_inv in H as (ys' & Hys & H).
      inversion H; subst ys. constructor; [exact Hy | now apply IH].
  - induction 1 as [|x y rest ys' Hy _ IH]; cbn; [reflexivity|].
    now rewrite Hy, IH.
Qed.

Lemma map_if_array_inv (f : value -> result value) (xs : list value) (v : value) :
  map_if_array f (VArr xs) = Ok v ->
  exists ys, v = VArr ys /\ Forall2 (fun x y => f x = Ok y) xs ys.
Proof.
  unfold map_if_array. cbn. intros H.
  apply bind_Ok_inv in H as (ys & Hys & H). inversion H.
  exists ys. split; [reflexivity | now apply mapM_Forall2].
Qed.

Lemma map_if_array_Ok_input (v v' : value) :
  map_if_array status v = Ok v' -> statuses_input v.
Proof.
  intros H items ->.
  apply map_if_array_inv in H as (ys & _ & Hall).
  induction Hall as [|x y rest ys' Hy _ IH]; constructor; [|exact IH].
  apply status_Ok_input. now exists y.
Qed.

Lemma context_inv (c o : value) :
  context c = Ok o ->
  exists a d a' d',
    prop c "ancestors" = Ok a /\ prop c "descendants" = Ok d /\
    map_if_array status a = Ok a' /\ map_if_array status d = Ok d' /\
    o = VObj [("ancestors", a'); ("descendants", d')].
Proof.
  unfold context. intros H.
  apply bind_Ok_inv in H as (a' & Ha & H).
  apply bind_Ok_inv in Ha as (a & Hpa & Ha).
  apply bind_Ok_inv in H as (d' & Hd & H).
  apply bind_Ok_inv in Hd as (d & Hpd & Hd).
  inversion H. now exists a, d, a', d'.
Qed.

(** X5.  [context] converts the ancestors and the descendants one by one,
    in order: the result holds as many statuses as the backend array, the
    i-th being what [status] returns on the i-th. *)
Theorem context_elementwise (c o : value) :
  context c = Ok o ->
  (forall xs, prop c "ancestors" = Ok (VArr xs) ->
     exists ys,
       own "ancestors" o = Some (VArr ys) /\
       Forall2 (fun x y => status x = Ok y) xs ys /\
       length ys = length xs) /\
  (forall xs, prop c "descendants" = Ok (VArr xs) ->
     exists ys,
       own "descendants" o = Some (VArr ys) /\
       Forall2 (fun x y => status x = Ok y) xs ys /\
       length ys = length xs).
Proof.
  intros H.
  apply context_inv in H as (a & d & a' & d' & Hpa & Hpd & Ha & Hd & ->).
  split; intros xs Hxs.
  - rewrite Hpa in Hxs. inversion Hxs; subst a.
    apply map_if_array_inv in Ha as (ys & -> & Hall).
    exists ys. split; [reflexivity|]. split; [exact Hall|].
    symmetry. now apply (Forall2_length _ _ _ Hall).
  - rewrite Hpd in Hxs. inversion Hxs; subst d.
    apply map_if_array_inv in Hd as (ys & -> & Hall).
    exists ys. split; [reflexivity|]. split; [exact Hall|].
    symmetry. now apply (Forall2_length _ _ _ Hall).
Qed.

Lemma context_thread :
  exists o, context Sample.thread = Ok o.
Proof.
  destruct (context_arrays Sample.thread VNull (VArr [Sample.photo])
              eq_refl eq_refl) as (o & Ho & _).
  - now apply statuses_input_not_array.
  - intros items Hitems. inversion Hitems; subst items.
    constructor; [exact status_input_photo | constructor].
  - now exists o.
Qed.

Lemma context_elementwise_witness :
  exists o y,
    context Sample.thread = Ok o /\
    own "descendants" o = Some (VArr [y]) /\
    status Sample.photo = Ok y.
Proof.
  destruct context_thread as [o Ho].
  destruct (proj2 (context_elementwise Sample.thread o Ho) [Sample.photo] eq_refl)
    as (ys & Hown & Hall & _).
  inversion Hall as [|x y rest ys' Hy Hrest]; subst.
  inversion Hrest; subst.
  now exists o, y.
Defined.

(** X6.  [context] returns exactly when its argument is neither [null]
    nor [undefined] and every element of an [ancestors] or [descendants]
    array is a status [status] returns on: one bad element makes the
    whole conversion throw, a value that is not an array never does. *)
Theorem context_returns_iff (c : value) :
  (exists o, context c = Ok o) <->
  exists a d,
    prop c "ancestors" = Ok a /\ prop c "descendants" = Ok d /\
    statuses_input a /\ statuses_input d.
Proof.
  split.
  - intros [o H].
    apply context_inv in H as (a & d & a' & d' & Hpa & Hpd & Ha & Hd & _).
    exists a, d. repeat split; try assumption.
    + now apply (map_if_array_Ok_input _ _ Ha).
    + now apply (map_if_array_Ok_input _ _ Hd).
  - intros (a & d & Hpa & Hpd & Ha & Hd).
    destruct (context_arrays c a d Hpa Hpd Ha Hd) as (o & Ho & _).
    now exists o.
Qed.

Lemma context_returns_iff_witness :
  ~ exists o,
      context (VObj [("ancestors", VArr [Sample.photo; VNull]);
                     ("descendants", VArr [])]) = Ok o.
Proof.
  intros H.
  apply (proj1 (context_returns_iff _)) in H
    as (a & d & Hpa & _ & Ha & _).
  cbn in Hpa. inversion Hpa; subst a.
  specialize (Ha _ eq_refl).
  inversion Ha as [|x rest _ Hrest]; subst.
  inversion Hrest as [|y rest' Hnull _]; subst.
  inversion Hnull.
Defined.

Lemma results_inv (r o : value) :
  results r = Ok o ->
  exists a s h a' s',
    prop r "accounts" = Ok a /\ prop r "statuses" = Ok s /\
    prop r "hashtags" = Ok h /\
    map_if_array account a = Ok a' /\ map_if_array status s = Ok s' /\
    o = VObj [("accounts", a'); ("statuses", s'); ("hashtags", kept_if_array h)].
Proof.
  unfold results, tag. intros H.
  apply bind_Ok_inv in H as (a' & Ha & H).
  apply bind_Ok_inv in Ha as (a & Hpa & Ha).
  apply bind_Ok_inv in H as (s' & Hs & H).
  apply bind_Ok_inv in Hs as (s & Hps & Hs).
  apply bind_Ok_inv in H as (h' & Hh & H).
  apply bind_Ok_inv in Hh as (h & Hph & Hh).
  rewrite map_if_array_id in Hh. inversion Hh; subst h'. inversion H.
  now exists a, s, h, a', s'.
Qed.

(** X7.  [results] converts the accounts with [account] and the statuses
    with [status], one by one and in order, and returns an array of
    hashtags as it came. *)
Theorem results_elementwise (r o : value) :
  results r = Ok o ->
  (forall xs, prop r "accounts" = Ok (VArr xs) ->
     exists ys,
       own "accounts" o = Some (VArr ys) /\
       Forall2 (fun x y => account x = Ok y) xs ys) /\
  (forall xs, prop r "statuses" = Ok (VArr xs) ->
     exists ys,
       own "statuses" o = Some (VArr ys) /\
       Forall2 (fun x y => status x = Ok y) xs ys) /\
  (forall xs, prop r "hashtags" = Ok (VArr xs) ->
     own "hashtags" o = Some (VArr xs)).
Proof.
  intros H.
  apply results_inv in H
    as (a & s & h & a' & s' & Hpa & Hps & Hph & Ha & Hs & ->).
  split; [|split]; intros xs Hxs.
  - rewrite Hpa in Hxs. inversion Hxs; subst a.
    apply map_if_array_inv in Ha as (ys & -> & Hall). now exists ys.
  - rewrite Hps in Hxs. inversion Hxs; subst s.
    apply map_if_array_inv in Hs as (ys & -> & Hall). now exists ys.
  - rewrite Hph in Hxs. inversion Hxs; subst h. reflexivity.
Qed.

Lemma results_search_hit : exists o, results Sample2.search_hit = Ok o.
Proof.
  destruct (results_arrays Sample2.search_hit (VArr [Sample.alice])
              (VArr [Sample.boost]) (VArr [VObj [("name", VStr "cats")]])
              eq_refl eq_refl eq_refl) as (o & Ho & _).
  - intros items Hitems. inversion Hitems; subst items.
    constructor; [reflexivity | constructor].
  - intros items Hitems. inversion Hitems; subst items.
    constructor; [exact status_input_boost | constructor].
  - now exists o.
Qed.

Lemma results_elementwise_witness :
  exists o y,
    results Sample2.search_hit = Ok o /\
    own "statuses" o = Some (VArr [y]) /\
    status Sample.boost = Ok y /\
    own "hashtags" o = Some (VArr [VObj [("name", VStr "cats")]]).
Proof.
  destruct results_search_hit as [o Ho].
  destruct (results_elementwise Sample2.search_hit o Ho) as (_ & Hst & Hh).
  destruct (Hst [Sample.boost] eq_refl) as (ys & Hown & Hall).
  inversion Hall as [|x y rest ys' Hy Hrest]; subst.
  inversion Hrest; subst.
  exists o, y. repeat split; try assumption.
  now apply Hh.
Defined.

Lemma conversation_inv (c o : value) :
  conversation c = Ok o ->
  exists i a l u a' l',
    prop c "id" = Ok i /\ prop c "accounts" = Ok a /\
    prop c "last_status" = Ok l /\ prop c "unread" = Ok u /\
    map_if_array account a = Ok a' /\
    (if truthy l then status l else Ok VNull) = Ok l' /\
    o = VObj [("id", i); ("accounts", a'); ("last_status", l'); ("unread", u)].
Proof.
  unfold conversation. intros H.
  apply bind_Ok_inv in H as (i & Hi & H).
  apply bind_Ok_inv in H as (a' & Ha & H).
  apply bind_Ok_inv in Ha as (a & Hpa & Ha).
  apply bind_Ok_inv in H as (l' & Hl & H).
  apply bind_Ok_inv in Hl as (l & Hpl & Hl).
  apply bind_Ok_inv in H as (u & Hu & H).
  inversion H. now exists i, a, l, u, a', l'.
Qed.

(** X8.  In a converted conversation, [last_status] is [null] when the
    backend's is falsy (absent, [null]) and what [status] returns on it
    otherwise; the accounts are converted one by one with [account]; [id]
    and [unread] are the backend's. *)
Theorem conversation_fields (c o : value) :
  conversation c = Ok o ->
  (forall l, prop c "last_status" = Ok l ->
     (truthy l = false -> own "last_status" o = Some VNull) /\
     (truthy l = true ->
      exists st, status l = Ok st /\ own "last_status" o = Some st)) /\
  (forall xs, prop c "accounts" = Ok (VArr xs) ->
     exists ys,
       own "accounts" o = Some (VArr ys) /\
       Forall2 (fun x y => account x = Ok y) xs ys) /\
  (forall i, prop c "id" = Ok i -> own "id" o = Some i) /\
  (forall u, prop c "unread" = Ok u -> own "unread" o = Some u).
Proof.
  intros H.
  apply conversation_inv in H
    as (i & a & l & u & a' & l' & Hi & Hpa & Hpl & Hu & Ha & Hl & ->).
  split; [|split; [|split]].
  - intros l0 Hl0. rewrite Hpl in Hl0. inversion Hl0; subst l0. split.
    + intros Ht. rewrite Ht in Hl. now inversion Hl.
    + intros Ht. rewrite Ht in Hl. now exists l'.
  - intros xs Hxs. rewrite Hpa in Hxs. inversion Hxs; subst a.
    apply map_if_array_inv in Ha as (ys & -> & Hall). now exists ys.
  - intros i0 Hi0. rewrite Hi in Hi0. now inversion Hi0.
  - intros u0 Hu0. rewrite Hu in Hu0. now inversion Hu0.
Qed.

Lemma conversation_fields_witness :
  exists o,
    conversation Sample2.inbox = Ok o /\
    own "last_status" o = Some VNull /\
    own "unread" o = Some (VBool true).
Proof.
  destruct (conversation_arrays Sample2.inbox (VArr [Sample.alice]) VNull
              eq_refl eq_refl) as (o & Ho & _).
  - intros items Hitems. inversion Hitems; subst items.
    constructor; [reflexivity | constructor].
  - discriminate.
  - destruct (conversation_fields Sample2.inbox o Ho) as (Hl & _ & _ & Hu).
    exists o. split; [exact Ho|]. split.
    + now apply (proj1 (Hl VNull eq_refl)).
    + now apply Hu.
Defined.

(* ===================================================================== *)
(** ** Further properties of the enumeration mapper and of notifications *)
(* ===================================================================== *)

Lemma strict_eq_str_true (t : value) (c : string) :
  (t === c) = true -> t = VStr c.
Proof.
  destruct t; try discriminate. cbn. intros H.
  apply String.eqb_eq in H. now subst.
Qed.

Lemma decode_member (NotificationType PixelfedNotificationType : NotificationTypes)
  (t : value) (m : string) :
  decodeNotificationType NotificationType PixelfedNotificationType t = inl m ->
  In m (members NotificationType) /\
  exists b, t = VStr b /\ In b (members PixelfedNotificationType).
Proof.
  unfold decodeNotificationType, members.
  repeat match goal with
         | |- context [if ?t === ?c then _ else _] =>
             destruct (t === c) eqn:?H
         end; intros E; inversion E; subst;
    (split; [cbn; tauto|]);
    match goal with
    | H : (_ === ?c) = true |- _ =>
        exists c; split; [exact (strict_eq_str_true _ _ H) | cbn; tauto]
    end.
Qed.

Lemma encode_member (NotificationType PixelfedNotificationType : NotificationTypes)
  (t : value) (b : string) :
  encodeNotificationType NotificationType PixelfedNotificationType t = inl b ->
  In b (members PixelfedNotificationType) /\
  exists m, t = VStr m /\ In m (members NotificationType).
Proof.
  unfold encodeNotificationType, members.
  repeat match goal with
         | |- context [if ?t === ?c then _ else _] =>
             destruct (t === c) eqn:?H
         end; intros E; inversion E; subst;
    (split; [cbn; tauto|]);
    match goal with
    | H : (_ === ?c) = true |- _ =>
        exists c; split; [exact (strict_eq_str_true _ _ H) | cbn; tauto]
    end.
Qed.

(** X9.  Neither mapper makes a value up: what [decodeNotificationType]
    returns, when it is not the marker, is one of the five canonical
    constants and its argument was one of the five backend constants; the
    same holds for [encodeNotificationType] the other way round.  Nothing
    is assumed of the constants. *)
Theorem mapper_results_are_members
  (NotificationType PixelfedNotificationType : NotificationTypes) (t : value) :
  (forall m,
     decodeNotificationType NotificationType PixelfedNotificationType t = inl m ->
     In m (members NotificationType) /\
     exists b, t = VStr b /\ In b (members PixelfedNotificationType)) /\
  (forall b,
     encodeNotificationType NotificationType PixelfedNotificationType t = inl b ->
     In b (members PixelfedNotificationType) /\
     exists m, t = VStr m /\ In m (members NotificationType)).
Proof.
  split; intros x H; [now apply decode_member in H | now apply encode_member in H].
Qed.

Lemma mapper_results_are_members_witness :
  In "mention" (members Sample.MegalodonNotificationType).
Proof.
  exact (proj1 (proj1 (mapper_results_are_members
                         Sample.MegalodonNotificationType
                         Sample.PixelfedNotificationType (VStr "mention"))
                  "mention" eq_refl)).
Defined.

(** X10.  Both mappers keep the kind: with the canonical constants
    pairwise distinct, each is encoded to the backend constant of the
    same name; with the backend constants pairwise distinct, each is
    decoded to the canonical constant of the same name. *)
Theorem mapper_keeps_kind
  (NotificationType PixelfedNotificationType : NotificationTypes) :
  (NoDup (members NotificationType) ->
   let encode :=
     encodeNotificationType NotificationType PixelfedNotificationType in
   encode (VStr (Follow NotificationType)) = inl (Follow PixelfedNotificationType) /\
   encode (VStr (Favourite NotificationType))
   = inl (Favourite PixelfedNotificationType) /\
   encode (VStr (Reblog NotificationType)) = inl (Reblog PixelfedNotificationType) /\
   encode (VStr (Mention NotificationType))
   = inl (Mention PixelfedNotificationType) /\
   encode (VStr (FollowRequest NotificationType))
   = inl (FollowRequest PixelfedNotificationType)) /\
  (NoDup (members PixelfedNotificationType) ->
   let decode :=
     decodeNotificationType NotificationType PixelfedNotificationType in
   decode (VStr (Follow PixelfedNotificationType)) = inl (Follow NotificationType) /\
   decode (VStr (Favourite PixelfedNotificationType))
   = inl (Favourite NotificationType) /\
   decode (VStr (Reblog PixelfedNotificationType)) = inl (Reblog NotificationType) /\
   decode (VStr (Mention PixelfedNotificationType))
   = inl (Mention NotificationType) /\
   decode (VStr (FollowRequest PixelfedNotificationType))
   = inl (FollowRequest NotificationType)).
Proof.
  split; intros Hd;
    destruct (distinct_members _ Hd) as (? & ? & ? & ? & ? & ? & ? & ? & ? & ?);
    cbv zeta; unfold encodeNotificationType, decodeNotificationType;
    repeat split; switch_cases; reflexivity.
Qed.

Lemma mapper_keeps_kind_witness :
  encodeNotificationType Sample.MegalodonNotificationType
    Sample.PixelfedNotificationType (VStr "follow_request")
  = inl "follow_request".
Proof.
  exact (proj2 (proj2 (proj2 (proj2
           (proj1 (mapper_keeps_kind Sample.MegalodonNotificationType
                     Sample.PixelfedNotificationType)
              (proj1 sample_members_distinct)))))).
Defined.

Lemma notification_obj
  (NotificationType PixelfedNotificationType : NotificationTypes)
  (fields : list (string * value)) :
  notification NotificationType PixelfedNotificationType (VObj fields) =
  match decodeNotificationType NotificationType PixelfedNotificationType
          (field "type" fields) with
  | inr e => Ok (inr e)
  | inl t =>
      if truthy (field "status" fields) then
        do account_ <- account (field "account" fields) ;
        do status_ <- status (field "status" fields) ;
        Ok (inl (VObj [("account", account_);
                       ("created_at", field "created_at" fields);
                       ("id", field "id" fields);
                       ("status", status_);
                       ("type", VStr t)]))
      else
        do account_ <- account (field "account" fields) ;
        Ok (inl (VObj [("account", account_);
                       ("created_at", field "created_at" fields);
                       ("id", field "id" fields);
                       ("type", VStr t)]))
  end.
Proof.
  unfold notification. cbn [prop bind].
  destruct (decodeNotificationType _ _ _); [|reflexivity].
  destruct (truthy (field "status" fields)); reflexivity.
Qed.

(** X11.  [notification] looks at the type before anything else.  On an
    object it returns exactly when the type is unknown (whatever else the
    object holds or lacks), or when the account can be read and the
    [status], if truthy, is one [status] returns on.  With a known type
    and an account that is [null] or missing it throws the [TypeError] of
    reading [id]. *)
Theorem notification_returns_iff
  (NotificationType PixelfedNotificationType : NotificationTypes)
  (fields : list (string * value)) :
  ((exists r,
      notification NotificationType PixelfedNotificationType (VObj fields) = Ok r)
   <->
   (exists e,
      decodeNotificationType NotificationType PixelfedNotificationType
        (field "type" fields) = inr e) \/
   (nullish (field "account" fields) = false /\
    (truthy (field "status" fields) = true ->
     status_input (field "status" fields)))) /\
  (forall t,
     decodeNotificationType NotificationType PixelfedNotificationType
       (field "type" fields) = inl t ->
     nullish (field "account" fields) = true ->
     notification NotificationType PixelfedNotificationType (VObj fields)
     = Throw (TypeError "id")).
Proof.
  rewrite notification_obj. split; [split|].
  - intros [r H].
    destruct (decodeNotificationType _ _ _) as [t|e]; [right | left; now exists e].
    destruct (truthy (field "status" fields)).
    + apply bind_Ok_inv in H as (acct & Ha & H).
      apply bind_Ok_inv in H as (st & Hs & _).
      split; [now apply (account_Ok_inv _ _ Ha)|]. intros _.
      apply status_Ok_input. now exists st.
    + apply bind_Ok_inv in H as (acct & Ha & _).
      split; [now apply (account_Ok_inv _ _ Ha) | discriminate].
  - intros [[e ->] | [Ha Hs]]; [now eexists|].
    destruct (decodeNotificationType _ _ _) as [t|e]; [|now eexists].
    destruct (account_returns _ Ha) as [acct ->].
    destruct (truthy (field "status" fields)); [|now eexists].
    destruct (status_returns _ (Hs eq_refl)) as [st ->]. now eexists.
  - intros t -> Hn. rewrite (account_throws_nullish _ Hn).
    now destruct (truthy (field "status" fields)).
Qed.

Lemma notification_returns_iff_witness :
  notification Sample.MegalodonNotificationType Sample.PixelfedNotificationType
    Sample2.orphan = Throw (TypeError "id").
Proof.
  exact (proj2 (notification_returns_iff Sample.MegalodonNotificationType
                  Sample.PixelfedNotificationType
                  [("created_at", VStr "2023-03-04"); ("id", VStr "23");
                   ("type", VStr "mention")])
           "mention" eq_refl eq_refl).
Defined.

(** X12.  The [type] of a converted notification is always one of the
    five canonical constants, and the backend's [type] was one of the five
    backend constants. *)
Theorem notification_type_member
  (NotificationType PixelfedNotificationType : NotificationTypes)
  (n o : value) :
  notification NotificationType PixelfedNotificationType n = Ok (inl o) ->
  exists m b,
    own "type" o = Some (VStr m) /\ In m (members NotificationType) /\
    prop n "type" = Ok (VStr b) /\ In b (members PixelfedNotificationType).
Proof.
  unfold notification. intros H.
  apply bind_Ok_inv in H as (t & Ht & H).
  destruct (decodeNotificationType _ _ t) as [m|e] eqn:Hdec; [|discriminate H].
  destruct (decode_member _ _ _ _ Hdec) as (Hm & b & -> & Hb).
  exists m, b. split; [|now repeat split].
  apply bind_Ok_inv in H as (st & _ & H).
  destruct (truthy st).
  - apply bind_Ok_inv in H as (acct & _ & H).
    apply bind_Ok_inv in H as (c & _ & H).
    apply bind_Ok_inv in H as (i & _ & H).
    apply bind_Ok_inv in H as (s & _ & H).
    now inversion H.
  - apply bind_Ok_inv in H as (acct & _ & H).
    apply bind_Ok_inv in H as (c & _ & H).
    apply bind_Ok_inv in H as (i & _ & H).
    now inversion H.
Qed.

Lemma notification_type_member_witness :
  exists o m,
    notification Sample.MegalodonNotificationType Sample.PixelfedNotificationType
      (VObj Sample.followed_fields) = Ok (inl o) /\
    own "type" o = Some (VStr m) /\
    In m (members Sample.MegalodonNotificationType).
Proof.
  eexists.
  destruct (notification_type_member Sample.MegalodonNotificationType
              Sample.PixelfedNotificationType (VObj Sample.followed_fields) _
              eq_refl) as (m & b & Hm & Hin & _).
  exists m. split; [reflexivity|]. split; [exact Hm | exact Hin].
Defined.

(* ===================================================================== *)
(** ** Attachments, instances and reports *)
(* ===================================================================== *)

Lemma prop_Ok_readable (v x : value) (k : string) :
  prop v k = Ok x -> nullish v = false.
Proof. destruct v; try discriminate; reflexivity. Qed.

Lemma prop_readable (v : value) (k : string) :
  nullish v = false -> exists x, prop v k = Ok x.
Proof. destruct v; try discriminate; intros _; eexists; reflexivity. Qed.

(** X13.  [async_attachment] on a value whose [url] is falsy (an
    attachment still being processed) returns that value itself; on one
    whose [url] is truthy it returns an object with exactly the nine keys
    of a canonical attachment, the values copied, whatever other keys the
    backend sent. *)
Theorem async_attachment_shape (a u : value) :
  prop a "url" = Ok u ->
  (truthy u = false -> async_attachment a = Ok a) /\
  (truthy u = true ->
   exists fields o,
     a = VObj fields /\
     async_attachment a = Ok o /\
     keys o = ["id"; "type"; "url"; "remote_url"; "preview_url"; "text_url";
               "meta"; "description"; "blurhash"] /\
     (forall k, In k (keys o) -> own k o = Some (field k fields))).
Proof.
  intros Hu. unfold async_attachment. rewrite Hu. cbn [bind]. split.
  - now intros ->.
  - intros Ht. rewrite Ht.
    destruct a as [| | b | n | str | items | fields]; try discriminate Hu;
      cbn in Hu; inversion Hu; subst u; try discriminate Ht.
    exists fields. eexists. split; [reflexivity|]. split; [reflexivity|].
    split; [reflexivity|].
    intros k Hk. cbn in Hk.
    repeat (destruct Hk as [<- | Hk]; [reflexivity|]). destruct Hk.
Qed.

Lemma async_attachment_shape_witness :
  async_attachment Sample2.processing = Ok Sample2.processing /\
  exists o,
    async_attachment Sample2.ready = Ok o /\
    own "url" o = Some (VStr "m3.png") /\
    own "license" o = None.
Proof.
  split.
  - now apply (proj1 (async_attachment_shape Sample2.processing VNull eq_refl)).
  - destruct (proj2 (async_attachment_shape Sample2.ready (VStr "m3.png") eq_refl)
                eq_refl) as (fields & o & Hf & Ho & Hk & Hv).
    exists o. split; [exact Ho|].
    inversion Hf; subst fields. split.
    + rewrite (Hv "url"); [reflexivity|]. rewrite Hk. cbn. tauto.
    + destruct o as [| | | | | |ofields]; try reflexivity.
      cbn [keys] in Hk. cbn [own].
      clear -Hk. revert Hk.
      repeat (destruct ofields as [|[? ?] ofields]; try discriminate).
      cbn. intros Hk. inversion Hk; subst. reflexivity.
Defined.

(** X14.  What [async_attachment] returns is a fixed point of it. *)
Theorem async_attachment_idempotent (a o : value) :
  async_attachment a = Ok o -> async_attachment o = Ok o.
Proof.
  unfold async_attachment. intros H.
  apply bind_Ok_inv in H as (u & Hu & H).
  destruct (truthy u) eqn:Ht.
  - destruct a as [| | b | n | str | items | fields]; try discriminate Hu;
      cbn in Hu; inversion Hu; subst u; try discriminate Ht.
    cbn in H. inversion H. cbn [prop bind field assoc String.eqb Ascii.eqb Bool.eqb].
    now rewrite Ht.
  - inversion H; subst o. rewrite Hu. cbn [bind]. now rewrite Ht.
Qed.

Lemma async_attachment_idempotent_witness :
  exists o, async_attachment Sample2.ready = Ok o /\ async_attachment o = Ok o.
Proof.
  eexists. split; [reflexivity|].
  apply (async_attachment_idempotent Sample2.ready). reflexivity.
Defined.

Lemma configuration_of_inv (i x : value) (group key : string) :
  configuration_of i group key = Ok x ->
  exists c g,
    prop i "configuration" = Ok c /\ prop c group = Ok g /\ prop g key = Ok x.
Proof.
  unfold configuration_of. intros H.
  apply bind_Ok_inv in H as (c & Hc & H).
  apply bind_Ok_inv in H as (g & Hg & H).
  now exists c, g.
Qed.

Lemma configuration_of_readable (i c g : value) (group key : string) :
  prop i "configuration" = Ok c -> prop c group = Ok g -> nullish g = false ->
  exists x, configuration_of i group key = Ok x.
Proof.
  intros Hc Hg Hn. unfold configuration_of. rewrite Hc. cbn [bind].
  rewrite Hg. cbn [bind]. now apply prop_readable.
Qed.

(** Split a chain of binds that returned into its steps. *)
Ltac binds_inv H :=
  repeat match type of H with
         | bind _ _ = Ok _ =>
             let x := fresh "x" in
             let Hx := fresh "Hx" in
             apply bind_Ok_inv in H as (x & Hx & H)
         end.

(** X15.  [instance] returns exactly when [configuration], its [statuses]
    and [polls] groups and [contact_account] can all be read from (none
    is [null] or missing); otherwise it throws. *)
Theorem instance_returns_iff (i : value) :
  (exists o, instance i = Ok o) <->
  exists c s p a,
    prop i "configuration" = Ok c /\
    prop c "statuses" = Ok s /\ nullish s = false /\
    prop c "polls" = Ok p /\ nullish p = false /\
    prop i "contact_account" = Ok a /\ nullish a = false.
Proof.
  split.
  - intros [o H]. unfold instance in H. binds_inv H.
    apply configuration_of_inv in Hx9 as (c & s & Hc & Hs & Hs').
    apply configuration_of_inv in Hx12 as (c' & p & Hc' & Hp & Hp').
    rewrite Hc in Hc'. inversion Hc'; subst c'.
    apply bind_Ok_inv in Hx16 as (a & Ha & Hacct).
    exists c, s, p, a. repeat split; try assumption.
    + now apply (prop_Ok_readable _ _ _ Hs').
    + now apply (prop_Ok_readable _ _ _ Hp').
    + now apply (account_Ok_inv _ _ Hacct).
  - intros (c & s & p & a & Hc & Hs & Hsn & Hp & Hpn & Ha & Han).
    pose proof (prop_Ok_readable _ _ _ Hc) as Hi.
    unfold instance. rewrite Ha.
    repeat match goal with
           | |- context [bind (prop i ?k) _] =>
               let x := fresh "x" in
               destruct (prop_readable i k Hi) as [x ->]; cbn [bind]
           end.
    repeat match goal with
           | |- context [bind (configuration_of i "statuses" ?k) _] =>
               let x := fresh "x" in
               destruct (configuration_of_readable i c s "statuses" k Hc Hs Hsn)
                 as [x ->]; cbn [bind]
           | |- context [bind (configuration_of i "polls" ?k) _] =>
               let x := fresh "x" in
               destruct (configuration_of_readable i c p "polls" k Hc Hp Hpn)
                 as [x ->]; cbn [bind]
           end.
    destruct (account_returns _ Han) as [acct ->]. cbn [bind].
    now eexists.
Qed.

Lemma instance_returns_iff_witness :
  (exists o, instance Sample2.pixelfed_social = Ok o) /\
  ~ (exists o, instance (VObj [("uri", VStr "pixelfed.social");
                               ("contact_account", Sample.alice)]) = Ok o).
Proof.
  split.
  - apply (proj2 (instance_returns_iff Sample2.pixelfed_social)).
    do 4 eexists.
    split; [reflexivity|]. split; [reflexivity|]. split; [reflexivity|].
    split; [reflexivity|]. split; [reflexivity|]. split; reflexivity.
  - intros H.
    apply (proj1 (instance_returns_iff _)) in H
      as (c & s & p & a & Hc & Hs & _).
    cbn in Hc. inversion Hc; subst c. discriminate Hs.
Defined.

(** X16.  A converted instance has fourteen keys, among them [urls] set
    to [null] and no [short_description]; its [configuration] has the two
    groups [statuses] and [polls] only (the backend's [media_attachments]
    group is not carried over), each of the seven limits being the
    backend's value under the same group and key; its [contact_account] is
    what [account] returns on the backend's. *)
Theorem instance_shape (i o : value) :
  instance i = Ok o ->
  keys o = ["uri"; "title"; "description"; "email"; "version"; "thumbnail";
            "urls"; "stats"; "languages"; "registrations"; "approval_required";
            "configuration"; "contact_account"; "rules"] /\
  own "urls" o = Some VNull /\
  (exists conf,
     own "configuration" o = Some conf /\
     keys conf = ["statuses"; "polls"] /\
     forall group key,
       In (group, key)
          [("statuses", "max_characters");
           ("statuses", "max_media_attachments");
           ("statuses", "characters_reserved_per_url");
           ("polls", "max_options");
           ("polls", "max_characters_per_option");
           ("polls", "min_expiration");
           ("polls", "max_expiration")] ->
       exists g v,
         own group conf = Some g /\
         configuration_of i group key = Ok v /\
         own key g = Some v) /\
  (exists a account_,
     prop i "contact_account" = Ok a /\
     account a = Ok account_ /\
     own "contact_account" o = Some account_).
Proof.
  intros H. unfold instance in H. binds_inv H. inversion H; subst o.
  split; [reflexivity|]. split; [reflexivity|]. split.
  - eexists. split; [reflexivity|]. split; [reflexivity|].
    intros group key Hin. cbn in Hin.
    repeat (destruct Hin as [Hin | Hin];
            [inversion Hin; subst group key; do 2 eexists;
             split; [reflexivity|]; split; [eassumption | reflexivity]|]).
    destruct Hin.
  - apply bind_Ok_inv in Hx16 as (a & Ha & Hacct).
    now exists a, x16.
Qed.

Lemma own_not_key (k : string) (o : value) : ~ In k (keys o) -> own k o = None.
Proof.
  destruct o as [| | | | | |fields]; try reflexivity. cbn [own keys].
  induction fields as [|[k' v] rest IH]; cbn; [reflexivity|].
  intros Hk. destruct (String.eqb k k') eqn:E.
  - apply String.eqb_eq in E. subst k'. exfalso. apply Hk. now left.
  - apply IH. intros H. apply Hk. now right.
Qed.

Lemma instance_shape_witness :
  exists o conf,
    instance Sample2.pixelfed_social = Ok o /\
    own "configuration" o = Some conf /\
    own "media_attachments" conf = None /\
    own "short_description" o = None.
Proof.
  eexists.
  destruct (instance_shape Sample2.pixelfed_social _ eq_refl)
    as (Hkeys & _ & (conf & Hconf & Hckeys & _) & _).
  exists conf. split; [reflexivity|]. split; [exact Hconf|]. split.
  - apply own_not_key. rewrite Hckeys. cbn. intuition discriminate.
  - apply own_not_key. rewrite Hkeys. cbn. intuition discriminate.
Defined.

(** X17.  [report] returns exactly when [target_account] can be read
    from, and then the result has the nine keys of a canonical report
    with [target_account] converted by [account]. *)
Theorem report_target_account (r : value) :
  ((exists o, report r = Ok o) <->
   (exists a, prop r "target_account" = Ok a /\ nullish a = false)) /\
  (forall o, report r = Ok o ->
     exists a account_,
       prop r "target_account" = Ok a /\
       account a = Ok account_ /\
       own "target_account" o = Some account_ /\
       keys o = ["id"; "action_taken"; "action_taken_at"; "status_ids";
                 "rule_ids"; "category"; "comment"; "forwarded";
                 "target_account"]).
Proof.
  assert (forall o, report r = Ok o ->
            exists a account_,
              prop r "target_account" = Ok a /\
              account a = Ok account_ /\
              own "target_account" o = Some account_ /\
              keys o = ["id"; "action_taken"; "action_taken_at"; "status_ids";
                        "rule_ids"; "category"; "comment"; "forwarded";
                        "target_account"]) as Hshape.
  { intros o H. unfold report in H. binds_inv H. inversion H; subst o.
    apply bind_Ok_inv in Hx7 as (a & Ha & Hacct).
    now exists a, x7. }
  split; [split|exact Hshape].
  - intros [o H]. destruct (Hshape o H) as (a & acct & Ha & Hacct & _).
    exists a. split; [exact Ha | now apply (account_Ok_inv _ _ Hacct)].
  - intros (a & Ha & Han).
    pose proof (prop_Ok_readable _ _ _ Ha) as Hr.
    unfold report. rewrite Ha.
    repeat match goal with
           | |- context [bind (prop r ?k) _] =>
               let x := fresh "x" in
               destruct (prop_readable r k Hr) as [x ->]; cbn [bind]
           end.
    destruct (account_returns _ Han) as [acct ->]. cbn [bind].
    now eexists.
Qed.

Lemma report_target_account_witness :
  exists o account_,
    report Sample2.spam_report = Ok o /\
    account Sample.alice = Ok account_ /\
    own "target_account" o = Some account_.
Proof.
  destruct (proj2 (proj1 (report_target_account Sample2.spam_report)))
    as [o Ho].
  { exists Sample.alice. split; reflexivity. }
  destruct (proj2 (report_target_account Sample2.spam_report) o Ho)
    as (a & acct & Ha & Hacct & Hown & _).
  cbn in Ha. inversion Ha; subst a.
  now exists o, acct.
Defined.

(* ===================================================================== *)
(** ** Further properties of the client *)
(* ===================================================================== *)

Lemma call_handlers (v : Verb) (c : Client) (path : string) (params : value)
  (hdrs : gmap string string) (w : World) (p : Promise AxiosResponse) :
  handlers (call v c path params hdrs w) p =
  match v with
  | Post | PostForm => then_ p envelope
  | _ => then_ (catch p rethrow) envelope
  end.
Proof. now destruct v. Qed.

Lemma settle_not_aborted (server : Request -> Promise AxiosResponse) (w : World)
  (r : Request) :
  (forall k, signal r = Some k -> k ∉ aborted w) -> settle server w r = server r.
Proof.
  intros H. unfold settle. destruct (signal r) as [k|]; [|reflexivity].
  now rewrite bool_decide_eq_false_2 by now apply H.
Qed.

(** X18.  Every verb method wraps a successful answer the same way: when
    the request was not aborted and the server answers, the promise is
    fulfilled with the answer's [data], [status], [statusText] and
    [headers], and nothing else of it. *)
Theorem response_envelope (server : Request -> Promise AxiosResponse)
  (v : Verb) (c : Client) (path : string) (params : value)
  (hdrs : gmap string string) (w w' : World) (resp : AxiosResponse) :
  (forall k, signal (sent (call v c path params hdrs w)) = Some k ->
             k ∉ aborted w') ->
  server (sent (call v c path params hdrs w)) = Fulfilled resp ->
  outcome server w' (call v c path params hdrs w)
  = Fulfilled {| res_data := resp_data resp;
                 res_status := resp_status resp;
                 res_statusText := resp_statusText resp;
                 res_headers := resp_headers resp |}.
Proof.
  intros Hlive Hresp. unfold outcome.
  rewrite (settle_not_aborted server w' _ Hlive), Hresp, call_handlers.
  now destruct v.
Qed.

Lemma first_client_live (k : AbortController) :
  k ∉ aborted (snd Sample.first_client).
Proof. cbn. apply not_elem_of_empty. Qed.

Lemma response_envelope_witness :
  outcome Sample.ok_server (snd Sample.first_client)
    (call PatchForm (fst Sample.first_client) "/api/v1/accounts/update_credentials"
       (VObj []) Sample.caller_headers (snd Sample.first_client))
  = Fulfilled {| res_data := VObj [("ok", VBool true)]; res_status := 200;
                 res_statusText := "OK"; res_headers := ∅ |}.
Proof.
  apply (response_envelope Sample.ok_server PatchForm (fst Sample.first_client)
           "/api/v1/accounts/update_credentials" (VObj []) Sample.caller_headers
           (snd Sample.first_client) (snd Sample.first_client)
           {| resp_data := VObj [("ok", VBool true)]; resp_status := 200;
              resp_statusText := "OK"; resp_headers := ∅;
              resp_config :=
                config (sent (call PatchForm (fst Sample.first_client)
                                "/api/v1/accounts/update_credentials" (VObj [])
                                Sample.caller_headers
                                (snd Sample.first_client))) |}).
  - intros k _. apply first_client_live.
  - reflexivity.
Defined.

(** X19.  A failure of the transport that is not an abort reaches the
    caller unchanged, through every verb method; through [post] and
    [postForm] every failure does. *)
Theorem transport_failure_unchanged (server : Request -> Promise AxiosResponse)
  (v : Verb) (c : Client) (path : string) (params : value)
  (hdrs : gmap string string) (w w' : World) (e : Error) :
  (forall k, signal (sent (call v c path params hdrs w)) = Some k ->
             k ∉ aborted w') ->
  server (sent (call v c path params hdrs w)) = Rejected e ->
  (isCancel e = false \/ v = Post \/ v = PostForm) ->
  outcome server w' (call v c path params hdrs w) = Rejected e.
Proof.
  intros Hlive Hresp He. unfold outcome.
  rewrite (settle_not_aborted server w' _ Hlive), Hresp, call_handlers.
  destruct He as [He | [-> | ->]]; [|reflexivity|reflexivity].
  destruct v; cbn; unfold rethrow; now rewrite ?He.
Qed.

Lemma transport_failure_unchanged_witness :
  outcome Sample2.failing_server (snd Sample.first_client)
    (call (Get false) (fst Sample.first_client) "/api/v1/instance" (VObj [])
       Sample.caller_headers (snd Sample.first_client))
  = Rejected (AxiosError "Request failed with status code 500" "ERR_BAD_RESPONSE").
Proof.
  apply (transport_failure_unchanged Sample2.failing_server (Get false)
           (fst Sample.first_client) "/api/v1/instance" (VObj [])
           Sample.caller_headers (snd Sample.first_client)
           (snd Sample.first_client)).
  - intros k _. apply first_client_live.
  - reflexivity.
  - now left.
Defined.


(** X21.  [cancel] is not undone.  Once the most recently constructed
    client has been cancelled, the requests it issues afterwards are
    rejected as well, whatever the server would answer: with
    [RequestCanceledError] through the six verbs that translate the abort,
    with the transport's abort failure through [post] and [postForm]. *)
Theorem cancelled_client_stays_cancelled
  (server : Request -> Promise AxiosResponse) (w : World)
  (baseUrl : string) (accessToken : option string)
  (v : Verb) (path : string) (params : value) (hdrs : gmap string string) :
  let c := fst (constructor baseUrl accessToken w) in
  let w1 := cancel c (snd (constructor baseUrl accessToken w)) in
  outcome server w1 (call v c path params hdrs w1)
  = match v with
    | Post | PostForm => Rejected (CanceledError "canceled")
    | _ => Rejected (RequestCanceledError "canceled")
    end.
Proof.
  intros c w1. unfold outcome.
  rewrite (settle_aborted server w1 _ (abortController c)).
  - rewrite call_handlers. now destruct v.
  - now destruct v.
  - apply cancel_aborts.
Qed.

Lemma allocated_initial : allocated initial.
Proof.
  split.
  - intros k Hk. now apply not_elem_of_empty in Hk.
  - discriminate.
Qed.

Lemma allocated_constructor (w : World) (baseUrl : string)
  (accessToken : option string) :
  allocated w ->
  allocated (snd (constructor baseUrl accessToken w)) /\
  abortController (fst (constructor baseUrl accessToken w))
  < controllers (snd (constructor baseUrl accessToken w)) /\
  abortController (fst (constructor baseUrl accessToken w))
  ∉ aborted (snd (constructor baseUrl accessToken w)).
Proof.
  intros [Ha Hd].
  unfold constructor, new_AbortController, set_defaults_signal. cbn.
  split; [split|split].
  - intros k Hk. specialize (Ha k Hk). simpl. lia.
  - intros k Hk. simpl in *. inversion Hk. lia.
  - simpl. lia.
  - intros Hk. specialize (Ha _ Hk). lia.
Qed.

Lemma allocated_cancel (w : World) (c : Client) :
  allocated w -> abortController c < controllers w -> allocated (cancel c w).
Proof.
  intros [Ha Hd] Hc. split; cbn.
  - intros k Hk. apply elem_of_union in Hk as [Hk | Hk].
    + apply elem_of_singleton in Hk. now subst.
    + now apply Ha.
  - exact Hd.
Qed.

(** X22.  A new client starts live.  In a world where every controller
    mentioned has been allocated (the initial world is one, and
    constructing a client or cancelling a constructed one keeps it so),
    the controller of a newly constructed client is not aborted, however
    many clients were cancelled before: a request it issues settles as the
    server answers. *)
Theorem fresh_client_is_live (w : World) (baseUrl : string)
  (accessToken : option string) :
  allocated w ->
  let c := fst (constructor baseUrl accessToken w) in
  let w1 := snd (constructor baseUrl accessToken w) in
  allocated w1 /\
  (abortController c ∉ aborted w1) /\
  forall (server : Request -> Promise AxiosResponse) (v : Verb) (path : string)
         (params : value) (hdrs : gmap string string) (resp : AxiosResponse),
    server (sent (call v c path params hdrs w1)) = Fulfilled resp ->
    outcome server w1 (call v c path params hdrs w1) = Fulfilled (envelope resp).
Proof.
  intros Hw c w1.
  destruct (allocated_constructor w baseUrl accessToken Hw) as (Hw1 & _ & Hlive).
  split; [exact Hw1|]. split; [exact Hlive|].
  intros server v path params hdrs resp Hresp. unfold outcome.
  rewrite (settle_live server w1 _ (abortController c)); [| |exact Hlive].
  - rewrite Hresp, call_handlers. now destruct v.
  - now destruct v.
Qed.

Lemma fresh_client_is_live_witness :
  let w := cancel (fst Sample.blank_client) (snd Sample.blank_client) in
  let c := fst (constructor "https://pixelfed.social" (Some "t") w) in
  let w1 := snd (constructor "https://pixelfed.social" (Some "t") w) in
  exists r,
    outcome Sample.ok_server w1 (put c "/api/v1/media/1" (VObj []) ∅ w1)
    = Fulfilled r /\ res_status r = 200%Z.
Proof.
  intros w c w1.
  assert (allocated w) as Hw.
  { apply allocated_cancel.
    - apply (allocated_constructor initial _ _ allocated_initial).
    - apply (allocated_constructor initial _ _ allocated_initial). }
  destruct (fresh_client_is_live w "https://pixelfed.social" (Some "t") Hw)
    as (_ & _ & Hlive).
  eexists. split.
  - apply (Hlive Sample.ok_server Put "/api/v1/media/1" (VObj []) ∅). reflexivity.
  - reflexivity.
Defined.

(** X23.  [cancel] touches only the requests that carry the signal of the
    cancelling client's controller: any other request in flight settles
    after the [cancel] as it would have without it. *)
Theorem cancel_only_own_signal (server : Request -> Promise AxiosResponse)
  (c : Client) (w : World) (p : Pending) :
  signal (sent p) <> Some (abortController c) ->
  outcome server (cancel c w) p = outcome server w p.
Proof.
  intros Hs. unfold outcome, settle.
  destruct (signal (sent p)) as [k|]; [|reflexivity].
  rewrite (bool_decide_ext (k ∈ aborted (cancel c w)) (k ∈ aborted w));
    [reflexivity|].
  cbn. rewrite elem_of_union, elem_of_singleton. split; [|tauto].
  intros [-> | Hk]; [congruence | exact Hk].
Qed.

Lemma cancel_only_own_signal_witness :
  let b := fst Sample.first_client in
  let w := snd Sample.second_client in
  outcome Sample.ok_server (cancel b w)
    (get b "/api/v1/instance" (VObj []) ∅ false w)
  = outcome Sample.ok_server w (get b "/api/v1/instance" (VObj []) ∅ false w).
Proof.
  intros b w.
  apply (cancel_only_own_signal Sample.ok_server b w). discriminate.
Defined.
